(** * Higgsfield gallery scraper and video downloader

    A shallow embedding of [src/video_downloader.py] (the resumable fetch
    loop of [HiggsfieldVideoDownloader]) and of [src/simple_scraper.py] (the
    item extraction workflow of [SimpleVideoScraper], its overlay field
    extraction and its popup dismissal chain), with the properties the
    specification states about them.

    The two programs talk to the outside world (a disk, an HTTP server, a
    browser).  The disk is a finite map from paths to files; the HTTP server
    and the browser are described by the outcome of every request the code
    makes, an exception being one of the outcomes. *)

From stdpp Require Import gmap strings list fin_maps.
From Stdlib Require Import ZArith Ascii String.

Set Warnings "-register-all".

Open Scope string_scope.
Open Scope list_scope.

(** ** JSON documents

    What [json.load] returns and [json.dump] writes.  An object is a finite
    map from its names to its values; numbers are kept as integers, the
    downloader only ever tests them for truth. *)

Inductive json : Type :=
  | JNull
  | JBool (b : bool)
  | JNum (n : Z)
  | JStr (s : string)
  | JList (l : list json)
  | JObj (m : gmap string json).

(** Python's truth value of a loaded JSON value, as tested by [not video_url]. *)
Definition truthy (v : json) : bool :=
  match v with
  | JNull => false
  | JBool b => b
  | JNum n => negb (n =? 0)%Z
  | JStr s => negb (String.eqb s "")
  | JList l => match l with [] => false | _ :: _ => true end
  | JObj m => negb (bool_decide (m = ∅))
  end.

(** ** Strings and POSIX paths

    The string operations of the Python prelude that the downloader uses, on
    byte strings. *)

(** [s.endswith(suffix)] *)
Fixpoint endswith (s suffix : string) : bool :=
  String.eqb s suffix ||
  match s with
  | EmptyString => false
  | String _ s' => endswith s' suffix
  end.

(** [s.startswith(p)] *)
Definition startswith (s p : string) : bool := String.prefix p s.

Definition is_sep (c : ascii) : bool := Ascii.eqb c "/"%char.

(** [(p[:i], p[i:])] for [i = p.rfind('/') + 1]: the part up to and with the
    last slash, and the part after it. *)
Fixpoint split_last_sep (p : string) : string * string :=
  match p with
  | EmptyString => (EmptyString, EmptyString)
  | String c p' =>
      let '(head, tail) := split_last_sep p' in
      match head with
      | EmptyString => if is_sep c then (String c EmptyString, tail)
                       else (EmptyString, String c tail)
      | String _ _ => (String c head, tail)
      end
  end.

(** [s.rstrip('/')] *)
Fixpoint rstrip_sep (s : string) : string :=
  match s with
  | EmptyString => EmptyString
  | String c s' =>
      match rstrip_sep s' with
      | EmptyString => if is_sep c then EmptyString else String c EmptyString
      | String _ _ as r => String c r
      end
  end.

(** [os.path.basename] *)
Definition basename (p : string) : string := snd (split_last_sep p).

(** [os.path.dirname]: the head, without its trailing slashes unless it is
    made of slashes only. *)
Definition dirname (p : string) : string :=
  let head := fst (split_last_sep p) in
  match rstrip_sep head with
  | EmptyString => head
  | String _ _ as stripped => stripped
  end.

(** [os.path.join(a, b)] *)
Definition path_join (a b : string) : string :=
  if startswith b "/" then b
  else if String.eqb a "" || endswith a "/" then a +:+ b
  else a +:+ "/" +:+ b.

(** [s.split('.')[0]]: the text before the first dot. *)
Fixpoint before_dot (s : string) : string :=
  match s with
  | EmptyString => EmptyString
  | String c s' => if Ascii.eqb c "."%char then EmptyString else String c (before_dot s')
  end.

(** The last character of a string, if it has one. *)
Fixpoint last_char (s : string) : option ascii :=
  match s with
  | EmptyString => None
  | String c s' => match last_char s' with None => Some c | Some c' => Some c' end
  end.

(** [list(s)]: the one-character strings of [s]. *)
Fixpoint chars (s : string) : list string :=
  match s with
  | EmptyString => []
  | String c s' => String c EmptyString :: chars s'
  end.

(** ** The disk and the HTTP server *)

(** A file is a JSON document or the bytes a download wrote. *)
Inductive file : Type :=
  | FJson (data : json)
  | FBytes (content : string).

(** The outcome of one [session.get(url, stream=True)] followed by reading
    the body: the download fails before the output file is there ([get],
    [raise_for_status], the content-length header or [open] raises), or the
    body comes in chunks and the stream may break after [n] of them. *)
Inductive response : Type :=
  | RequestError
  | Body (chunks : list string) (breaks_after : option nat).

(** The events the downloader logs for one record. *)
Inductive event : Type :=
  | Downloading (url : string)
  | DownloadOk (save_path : string)
  | DownloadFailed (url : string)
  | SkippingExisting (filename : string)
  | ProcessingError.

(** The state the downloader threads through its loops: the disk, the
    requests sent so far (oldest first), the log, and the two counters of
    [download_category_videos]. *)
Record state : Type := State {
  files : gmap string file;
  requests : list string;
  log : list event;
  total_downloaded : nat;
  total_failed : nat
}.

Definition set_files (f : gmap string file) (s : state) : state :=
  State f (requests s) (log s) (total_downloaded s) (total_failed s).
Definition add_request (url : string) (s : state) : state :=
  State (files s) (requests s ++ [url]) (log s) (total_downloaded s) (total_failed s).
Definition add_log (e : event) (s : state) : state :=
  State (files s) (requests s) (log s ++ [e]) (total_downloaded s) (total_failed s).
Definition count_downloaded (s : state) : state :=
  State (files s) (requests s) (log s) (S (total_downloaded s)) (total_failed s).
Definition count_failed (s : state) : state :=
  State (files s) (requests s) (log s) (total_downloaded s) (S (total_failed s)).
Definition reset_counters (s : state) : state :=
  State (files s) (requests s) (log s) 0 0.

(** [os.path.exists] *)
Definition path_exists (p : string) (s : state) : bool :=
  bool_decide (is_Some (files s !! p)).

(** What [for chunk in response.iter_content(...): if chunk: f.write(chunk)]
    leaves in the file. *)
Definition write_chunks (chunks : list string) : string :=
  fold_left (fun content chunk => if String.eqb chunk "" then content else content +:+ chunk)
            chunks "".

Section Downloader.

(** [urlparse(url).path] of [urllib.parse]; [None] when [urlparse] raises
    [ValueError]. *)
Variable urlparse_path : string -> option string.

(** The server: the outcome of the request for [url] when [n] requests were
    sent before it. *)
Variable http_get : nat -> string -> response.

(** [get_file_extension], lines 78-90. *)
Definition get_file_extension (url : string) : option string :=
  path ← urlparse_path url;
  Some (if endswith path ".mp4" then ".mp4"
        else if endswith path ".webm" then ".webm"
        else if endswith path ".mov" then ".mov"
        else ".mp4").

(** The filename of lines 181-183:
    [video_id = os.path.basename(urlparse(video_url).path).split('.')[0]],
    [extension = self.get_file_extension(video_url)],
    [filename = f"{video_id}{extension}"]. *)
Definition video_filename (video_url : string) : option string :=
  path ← urlparse_path video_url;
  let video_id := before_dot (basename path) in
  extension ← get_file_extension video_url;
  Some (video_id +:+ extension).

(** [download_video], lines 100-128.  The output file is opened (created or
    truncated) once the response headers are in, the chunks that arrive are
    written to it, and an exception anywhere gives [False]. *)
Definition download_video (video_url save_path : string) (s : state) : bool * state :=
  let s := add_log (Downloading video_url) s in
  let sent := List.length (requests s) in
  let s := add_request video_url s in
  match http_get sent video_url with
  | RequestError => (false, add_log (DownloadFailed video_url) s)
  | Body chunks None =>
      let s := set_files (<[save_path := FBytes (write_chunks chunks)]> (files s)) s in
      (true, add_log (DownloadOk save_path) s)
  | Body chunks (Some n) =>
      let s := set_files (<[save_path := FBytes (write_chunks (take n chunks))]> (files s)) s in
      (false, add_log (DownloadFailed video_url) s)
  end.

(** [video['local_file_path'] = save_path; video['filename'] = filename] *)
Definition add_local_path (save_path filename : string) (video : gmap string json)
  : gmap string json :=
  <["filename" := JStr filename]> (<["local_file_path" := JStr save_path]> video).

(** The body of [for i, video in enumerate(videos)], lines 172-215: the
    record to append to [updated_videos] and the new state.  Every path
    through the body appends exactly one record.  A record that is not an
    object, a true [video_url] that is not a string and a URL that [urlparse]
    rejects raise, which the handler of line 211 turns into the original
    record and one more failure. *)
Definition process_video (videos_folder : string) (video : json) (s : state)
  : json * state :=
  let raised := (video, count_failed (add_log ProcessingError s)) in
  match video with
  | JObj fields =>
      let video_url := default (JStr "") (fields !! "video_url") in
      if negb (truthy video_url) then (video, s)
      else
        match video_url with
        | JStr url =>
            match video_filename url with
            | Some filename =>
                let save_path := path_join videos_folder filename in
                if path_exists save_path s then
                  (JObj (add_local_path save_path filename fields),
                   add_log (SkippingExisting filename) s)
                else
                  let '(ok, s) := download_video url save_path s in
                  if ok then
                    (JObj (add_local_path save_path filename fields), count_downloaded s)
                  else (video, count_failed s)
            | None => raised
            end
        | _ => raised
        end
  | _ => raised
  end.

(** The loop over the records of one file, lines 169-215. *)
Fixpoint process_videos (videos_folder : string) (videos : list json) (s : state)
  : list json * state :=
  match videos with
  | [] => ([], s)
  | video :: rest =>
      let '(video', s) := process_video videos_folder video s in
      let '(updated, s) := process_videos videos_folder rest s in
      (video' :: updated, s)
  end.

(** What [len(videos)] and [enumerate(videos)] go through, for the values
    [json.load] can give: [None] is the [TypeError] of a value without a
    length.  A string gives its characters and an object its names (in the
    order of the map; Python goes by insertion order). *)
Definition iterate (videos : json) : option (list json) :=
  match videos with
  | JList l => Some l
  | JStr s => Some (JStr <$> chars s)
  | JObj m => Some (JStr <$> (map_to_list m).*1)
  | JNull | JBool _ | JNum _ => None
  end.

(** Lines 160-164: a list is the records itself, anything else is asked for
    its [videos] field, which only an object has. *)
Definition select_videos (videos_data : json) : option json :=
  match videos_data with
  | JList _ => Some videos_data
  | JObj m => Some (default (JList []) (m !! "videos"))
  | _ => None
  end.

(** Lines 217-222: the document written back. *)
Definition updated_json_data (videos_data : json) (updated_videos : list json) : json :=
  match videos_data with
  | JObj m => JObj (<["videos" := JList updated_videos]> m)
  | _ => JList updated_videos
  end.

(** The body of [for json_file in video_files], lines 147-231.  A file that
    is missing or is no JSON document, and a document without records to
    loop over, raise before anything is done; the handler of line 229 logs
    and goes on to the next file.  Directories are not on the disk of the
    model: [os.makedirs] of line 154 is taken to succeed. *)
Definition download_json_file (json_file : string) (s : state) : state :=
  let subcategory_folder := dirname json_file in
  let videos_folder := path_join subcategory_folder "videos" in
  match files s !! json_file with
  | Some (FJson videos_data) =>
      match select_videos videos_data ≫= iterate with
      | Some videos =>
          let '(updated_videos, s) := process_videos videos_folder videos s in
          set_files (<[json_file := FJson (updated_json_data videos_data updated_videos)]>
                       (files s)) s
      | None => s
      end
  | _ => s
  end.

(** [download_category_videos], lines 130-236, on the record files that
    [find_video_files] found under the category folder. *)
Definition download_category_videos (video_files : list string) (s : state) : state :=
  fold_left (fun s json_file => download_json_file json_file s) video_files
            (reset_counters s).

End Downloader.

(** ** The browser

    Every call into the browser either returns or raises.  The page is
    described by what each call of the scraper gives: an element that is
    absent is a lookup that raises. *)

Inductive result (A : Type) : Type :=
  | Ok (a : A)
  | Raise.
Arguments Ok {A} a.
Arguments Raise {A}.

#[global] Instance result_ret : MRet result := fun A a => Ok a.
#[global] Instance result_bind : MBind result := fun A B f m =>
  match m with
  | Ok a => f a
  | Raise => Raise
  end.

(** [try: body  except: handler] *)
Definition try_except {A : Type} (body handler : result A) : result A :=
  match body with
  | Ok a => Ok a
  | Raise => handler
  end.

(** An extracted item, [{'video_url': ..., 'prompt': ...}]; [None] is
    Python's [None]. *)
Record item : Type := Item {
  video_url : option string;
  prompt : option string
}.

(** The truth value of a string or [None]. *)
Definition nonempty (v : option string) : bool :=
  match v with
  | Some s => negb (String.eqb s "")
  | None => false
  end.

(** [a or b] *)
Definition py_or (a b : option string) : option string :=
  if nonempty a then a else b.

(** The characters [str.strip()] removes, among the one-byte ones. *)
Definition is_space (c : ascii) : bool :=
  let n := nat_of_ascii c in
  (((9 <=? n) && (n <=? 13)) || ((28 <=? n) && (n <=? 32)))%nat.

Fixpoint lstrip (s : string) : string :=
  match s with
  | EmptyString => EmptyString
  | String c s' => if is_space c then lstrip s' else s
  end.

Fixpoint rstrip (s : string) : string :=
  match s with
  | EmptyString => EmptyString
  | String c s' =>
      match rstrip s' with
      | EmptyString => if is_space c then EmptyString else String c EmptyString
      | String _ _ as r => String c r
      end
  end.

(** [s.strip()] *)
Definition strip (s : string) : string := rstrip (lstrip s).

(** *** The overlay *)

(** The [data-copy-prompt] control: its text, and the text of the element
    the XPath of line 320 finds next to it. *)
Record copy_button : Type := CopyButton {
  button_text : result string;
  nearby_text : result string
}.

(** The dialog: the [src] of its [video[src]] element, its copy control, and
    the text of the first element matching
    [.prompt, [data-prompt], .description, p]. *)
Record modal : Type := Modal {
  modal_video_src : result (option string);
  modal_copy_button : result copy_button;
  modal_prompt_text : result string
}.

(** [extract_prompt_from_popup], lines 292-341, given what the wait of line
    296 for the dialog returns; [Raise] is its timeout. *)
Definition extract_prompt_from_popup (wait_modal : result modal) : result (option item) :=
  try_except
    (modal ← wait_modal;
     let video_url := try_except (modal_video_src modal) (Ok None) in
     let prompt :=
       try_except
         (copy_button ← modal_copy_button modal;
          text ← button_text copy_button;
          let prompt := strip text in
          if String.eqb prompt "" || String.eqb prompt "true" then
            try_except (text ← nearby_text copy_button; Ok (Some (strip text)))
                       (Ok (Some prompt))
          else Ok (Some prompt))
         (try_except (text ← modal_prompt_text modal; Ok (Some (strip text)))
                     (Ok None)) in
     video_url ← video_url;
     prompt ← prompt;
     Ok (Some (Item video_url prompt)))
    (Ok None).

(** *** Dismissing the overlay *)

(** A candidate close button, as [close_popup] uses it. *)
Record button : Type := Button {
  is_displayed : result bool;
  is_enabled : result bool;
  click : result unit;
  script_click : result unit
}.

(** An overlay or backdrop element. *)
Record backdrop : Type := Backdrop {
  backdrop_displayed : result bool;
  backdrop_click : result unit
}.

(** How the page answers the calls of [close_popup]. *)
Record closer : Type := Closer {
  body_element : result unit;                  (* find_element(TAG_NAME, "body"), line 353 *)
  body_click : result unit;
  window_size : result (Z * Z);                (* get_window_size(): width, height *)
  pointer_click : Z * Z -> result unit;        (* move_by_offset(..).click().perform() for (x, y) *)
  find_buttons : string -> result (list button);
  escape_body : result unit;                   (* find_element(TAG_NAME, "body"), line 448 *)
  send_escape : nat -> result unit;            (* the i-th send_keys(Keys.ESCAPE) *)
  find_backdrops : result (list backdrop);
  browser_back : result unit
}.

(** The interactions [close_popup] attempts. *)
Inductive action : Type :=
  | ClickBody
  | ClickAt (x y : Z)
  | ClickButton (selector : string) (index : nat)
  | ScriptClickButton (selector : string) (index : nat)
  | SendEscape (i : nat)
  | ClickBackdrop (index : nat)
  | BrowserBack.

(** The six steps of the chain. *)
Inductive strategy : Type :=
  | BodyClick | ScreenPositions | CloseButtons | EscapeKey | BackdropClick | HistoryBack.

Definition strategy_of (a : action) : strategy :=
  match a with
  | ClickBody => BodyClick
  | ClickAt _ _ => ScreenPositions
  | ClickButton _ _ | ScriptClickButton _ _ => CloseButtons
  | SendEscape _ => EscapeKey
  | ClickBackdrop _ => BackdropClick
  | BrowserBack => HistoryBack
  end.

Definition succeeded {A : Type} (r : result A) : bool :=
  match r with
  | Ok _ => true
  | Raise => false
  end.

(** A step gives whether it returned [True] and what it attempted. *)
Definition attempt : Type := bool * list action.

(** Lines 350-359. *)
Definition try_body_click (c : closer) : attempt :=
  match body_element c with
  | Ok _ => (succeeded (body_click c), [ClickBody])
  | Raise => (false, [])
  end.

(** Lines 373-379. *)
Definition click_positions (width height : Z) : list (Z * Z) :=
  [ (width / 4, height / 4);
    (3 * width / 4, height / 4);
    (width / 2, height / 2);
    (width / 4, 3 * height / 4);
    (3 * width / 4, 3 * height / 4) ]%Z.

(** Lines 381-388. *)
Fixpoint click_each_position (c : closer) (positions : list (Z * Z)) : attempt :=
  match positions with
  | [] => (false, [])
  | (x, y) :: rest =>
      match pointer_click c (x, y) with
      | Ok _ => (true, [ClickAt x y])
      | Raise => let '(closed, tried) := click_each_position c rest in
                 (closed, ClickAt x y :: tried)
      end
  end.

(** Lines 362-391. *)
Definition try_screen_positions (c : closer) : attempt :=
  match window_size c with
  | Ok (width, height) => click_each_position c (click_positions width height)
  | Raise => (false, [])
  end.

(** Lines 394-419. *)
Definition close_selectors : list string :=
  [ "[aria-label='Close']";
    "[aria-label='close']";
    "button[aria-label*='Close' i]";
    "button[aria-label*='close' i]";
    ".close";
    ".close-button";
    "[class*='close']";
    "button[class*='close']";
    ".modal-close";
    "[data-testid='close']";
    "[data-testid='Close']";
    ".x-button";
    "[title='Close']";
    "[title='close']";
    "svg[class*='close']";
    "button svg";
    "button[type='button']:not([data-copy-prompt])";
    "button[aria-label*='back' i]";
    "button[aria-label*='return' i]" ].

(** Lines 426-442: the buttons one selector matched.  A visibility test that
    raises leaves the loop for the handler of line 443. *)
Fixpoint click_each_button (selector : string) (index : nat) (buttons : list button)
  : attempt :=
  match buttons with
  | [] => (false, [])
  | b :: rest =>
      match (displayed ← is_displayed b;
             if displayed : bool then is_enabled b else Ok false) with
      | Raise => (false, [])
      | Ok false => click_each_button selector (S index) rest
      | Ok true =>
          match click b with
          | Ok _ => (true, [ClickButton selector index])
          | Raise =>
              match script_click b with
              | Ok _ => (true, [ClickButton selector index; ScriptClickButton selector index])
              | Raise =>
                  let '(closed, tried) := click_each_button selector (S index) rest in
                  (closed, ClickButton selector index :: ScriptClickButton selector index :: tried)
              end
          end
      end
  end.

(** Lines 423-444. *)
Fixpoint try_close_buttons (c : closer) (selectors : list string) : attempt :=
  match selectors with
  | [] => (false, [])
  | selector :: rest =>
      let '(closed, tried) :=
        match find_buttons c selector with
        | Ok buttons => click_each_button selector 0 buttons
        | Raise => (false, [])
        end in
      if closed then (true, tried)
      else let '(closed, tried') := try_close_buttons c rest in
           (closed, tried ++ tried')
  end.

(** Lines 449-451: [count] key presses starting with the [i]-th. *)
Fixpoint send_escapes (c : closer) (i count : nat) : attempt :=
  match count with
  | O => (true, [])
  | S count' =>
      match send_escape c i with
      | Ok _ => let '(sent, tried) := send_escapes c (S i) count' in
                (sent, SendEscape i :: tried)
      | Raise => (false, [SendEscape i])
      end
  end.

(** Lines 447-456. *)
Definition try_escape_key (c : closer) : attempt :=
  match escape_body c with
  | Ok _ => send_escapes c 0 3
  | Raise => (false, [])
  end.

(** Lines 461-469. *)
Fixpoint click_each_backdrop (index : nat) (overlays : list backdrop) : attempt :=
  match overlays with
  | [] => (false, [])
  | o :: rest =>
      match backdrop_displayed o with
      | Raise => (false, [])
      | Ok false => click_each_backdrop (S index) rest
      | Ok true =>
          match backdrop_click o with
          | Ok _ => (true, [ClickBackdrop index])
          | Raise => let '(closed, tried) := click_each_backdrop (S index) rest in
                     (closed, ClickBackdrop index :: tried)
          end
      end
  end.

(** Lines 459-471. *)
Definition try_backdrop_click (c : closer) : attempt :=
  match find_backdrops c with
  | Ok overlays => click_each_backdrop 0 overlays
  | Raise => (false, [])
  end.

(** Lines 474-480. *)
Definition try_browser_back (c : closer) : attempt :=
  (succeeded (browser_back c), [BrowserBack]).

(** How a step of the chain runs on a closer. *)
Definition run_strategy (c : closer) (st : strategy) : attempt :=
  match st with
  | BodyClick => try_body_click c
  | ScreenPositions => try_screen_positions c
  | CloseButtons => try_close_buttons c close_selectors
  | EscapeKey => try_escape_key c
  | BackdropClick => try_backdrop_click c
  | HistoryBack => try_browser_back c
  end.

(** The order of the steps in [close_popup]. *)
Definition fallback_chain : list strategy :=
  [BodyClick; ScreenPositions; CloseButtons; EscapeKey; BackdropClick; HistoryBack].

(** A step that did not return [True] falls through to the code after it. *)
Definition or_else (first : attempt) (next : attempt) : attempt :=
  if first.1 then first else (next.1, first.2 ++ next.2).

(** [close_popup], lines 343-487. *)
Definition close_popup (c : closer) : attempt :=
  or_else (try_body_click c)
  (or_else (try_screen_positions c)
  (or_else (try_close_buttons c close_selectors)
  (or_else (try_escape_key c)
  (or_else (try_backdrop_click c)
  (or_else (try_browser_back c)
           (false, [])))))).

(** *** The listing page *)

(** The link of a figure and the three ways of activating it. *)
Record link : Type := Link {
  link_click : result unit;                    (* clickable_link.click() *)
  link_script_click : result unit;             (* execute_script("arguments[0].click();", ..) *)
  link_pointer_click : result unit             (* ActionChains(..).move_to_element(..).click().perform() *)
}.

(** A gallery item: what the calls of one loop iteration give. *)
Record figure : Type := Figure {
  fig_video_src : result (option string);      (* the src of its video[src] element *)
  fig_link : result link;                      (* find_element(CSS_SELECTOR, "a") *)
  fig_scroll : result unit;                    (* the scrollIntoView script *)
  fig_modal : result modal;                    (* the wait for the dialog, once activated *)
  fig_closer : closer                          (* the page while the overlay is dismissed *)
}.

(** A listing page. *)
Record page : Type := Page {
  setup_driver : result unit;
  navigate : result unit;                      (* lines 117-152, which re-raise *)
  wait_primary : result unit;                  (* the wait of line 164 for the primary selector *)
  primary_figures : result (list figure);      (* find_elements with the primary selector *)
  plain_figures : result (list figure)         (* find_elements(TAG_NAME, "figure") *)
}.

(** How one iteration of the loop over the figures ends. *)
Inductive figure_outcome : Type :=
  | NoLink                                     (* line 206 *)
  | ClickFailed                                (* line 237 *)
  | Extracted (it : item) (closed : bool)      (* lines 256-269 *)
  | NoData (closed : bool)                     (* lines 266-269 *)
  | Failed (closed : bool).                    (* lines 274-281 *)

(** Lines 218-237: the click cascade. *)
Definition click_link (l : link) : bool :=
  succeeded
    (try_except (link_click l)
       (try_except (link_script_click l)
          (link_pointer_click l))).

(** Lines 252-259: the record appended for what was extracted, if any;
    [preview_url] is the [video_url] read from the figure. *)
Definition extracted_item (extracted_data : option item) (preview_url : option string)
  : option item :=
  match extracted_data with
  | Some data =>
      if nonempty (prompt data) || nonempty (video_url data) then
        Some (Item (py_or (video_url data) preview_url) (prompt data))
      else None
  | None => None
  end.

(** The body of the [try] of lines 188-272. *)
Definition figure_body (f : figure) : result figure_outcome :=
  let video_url := try_except (fig_video_src f) (Ok None) in
  video_url ← video_url;
  match fig_link f with
  | Raise => Ok NoLink
  | Ok clickable_link =>
      _ ← fig_scroll f;
      if click_link clickable_link then
        extracted_data ← extract_prompt_from_popup (fig_modal f);
        let appended := extracted_item extracted_data video_url in
        let closed := (close_popup (fig_closer f)).1 in
        Ok (match appended with
            | Some it => Extracted it closed
            | None => NoData closed
            end)
      else Ok ClickFailed
  end.

(** One iteration, lines 187-281: an exception dismisses the overlay and
    goes on with the next figure. *)
Definition process_figure (f : figure) : result figure_outcome :=
  try_except (figure_body f)
             (Ok (Failed (close_popup (fig_closer f)).1)).

(** The loop of lines 187-281 over the figures, appending to [videos_data]. *)
Fixpoint process_figures (figures : list figure) (videos_data : list item)
  : result (list item) :=
  match figures with
  | [] => Ok videos_data
  | f :: rest =>
      outcome ← process_figure f;
      process_figures rest
        (match outcome with
         | Extracted it _ => videos_data ++ [it]
         | _ => videos_data
         end)
  end.

(** Lines 158-179: the figures to process; [None] is [return []]. *)
Definition locate_figures (p : page) : result (option (list figure)) :=
  try_except
    (_ ← wait_primary p;
     figures ← primary_figures p;
     figures ← (match figures with
                | [] => plain_figures p
                | _ :: _ => Ok figures
                end);
     match figures with
     | [] => Ok None
     | _ :: _ => Ok (Some figures)
     end)
    (Ok None).

(** [scrape_single_subcategory], lines 107-290.  The average of line 285
    divides by the number of figures. *)
Definition scrape_single_subcategory (p : page) : result (list item) :=
  try_except
    (_ ← setup_driver p;
     _ ← navigate p;
     located ← locate_figures p;
     match located with
     | None => Ok []
     | Some figures =>
         videos_data ← process_figures figures [];
         _ ← (match figures with [] => Raise | _ :: _ => Ok tt end);
         Ok videos_data
     end)
    (Ok []).

(** The chain in the specification's words: the steps of a list are tried
    in order, each only if the one before did not succeed, up to the first
    that succeeds. *)
Fixpoint first_success (c : closer) (chain : list strategy) : attempt :=
  match chain with
  | [] => (false, [])
  | st :: rest => or_else (run_strategy c st) (first_success c rest)
  end.

(** What [json.dump(videos_data, ...)] of [save_videos_data], line 510,
    writes for the items: [None] becomes [null]. *)
Definition json_of_field (v : option string) : json :=
  match v with
  | Some s => JStr s
  | None => JNull
  end.
Definition item_record (it : item) : gmap string json :=
  {[ "video_url" := json_of_field (video_url it); "prompt" := json_of_field (prompt it) ]}.
Definition saved_json (videos_data : list item) : json :=
  JList ((fun it => JObj (item_record it)) <$> videos_data).

(** What a figure adds to [videos_data]. *)
Definition appended (f : figure) : list item :=
  match process_figure f with
  | Ok (Extracted it _) => [it]
  | _ => []
  end.

(** ** Sample records and pages *)

(** A server whose first answer is an error and which then serves two
    chunks. *)
Definition flaky_server (n : nat) (url : string) : response :=
  match n with
  | O => RequestError
  | S _ => Body ["abcd"; "efgh"] None
  end.

(** A server whose stream breaks after the first of two chunks. *)
Definition breaking_server (n : nat) (url : string) : response :=
  Body ["abcd"; "efgh"] (Some 1).

(** A server that serves two chunks. *)
Definition good_server (n : nat) (url : string) : response :=
  Body ["abcd"; "efgh"] None.

(** The record [{video_url: "https://x/a.mp4", prompt: "p"}]. *)
Definition sample_record : gmap string json :=
  {[ "video_url" := JStr "https://x/a.mp4"; "prompt" := JStr "p" ]}.

(** A disk with one record file holding [sample_record]. *)
Definition sample_disk : state :=
  State {[ "cat/sub/videos.json" := FJson (JList [JObj sample_record]) ]} [] [] 0 0.

(** A URL parser for plain [https://x/...] URLs without query or fragment:
    the path is what follows the host [x]. *)
Definition plain_url_path (url : string) : option string :=
  if startswith url "https://x/" then Some (String.substring 9 (String.length url - 9) url)
  else Some "".


(** A page on which a click on the body dismisses the overlay. *)
Definition closer_body : closer :=
  Closer (Ok tt) (Ok tt) (Ok (1280, 720)%Z) (fun _ => Raise) (fun _ => Ok [])
         (Ok tt) (fun _ => Ok tt) (Ok []) (Ok tt).

(** A page on which nothing but the browser's back button works. *)
Definition closer_back : closer :=
  Closer Raise Raise (Ok (1280, 720)%Z) (fun _ => Raise) (fun _ => Ok [])
         Raise (fun _ => Raise) (Ok []) (Ok tt).

(** A page on which the first close button answers a script click only. *)
Definition closer_button : closer :=
  Closer Raise Raise Raise (fun _ => Raise)
         (fun selector =>
            if String.eqb selector "[aria-label='Close']"
            then Ok [Button (Ok false) (Ok true) (Ok tt) (Ok tt);
                     Button (Ok true) (Ok true) Raise (Ok tt)]
            else Ok [])
         (Ok tt) (fun _ => Ok tt) (Ok []) (Ok tt).

(** A page on which no strategy works. *)
Definition closer_stuck : closer :=
  Closer Raise Raise (Ok (1280, 720)%Z) (fun _ => Raise) (fun _ => Ok [])
         Raise (fun _ => Raise) (Ok []) Raise.

Definition modal_full : modal :=
  Modal (Ok (Some "https://cdn/full.mp4"))
        (Ok (CopyButton (Ok "  a cat on a skateboard ") Raise))
        Raise.

(** A dialog whose video element has an empty [src]. *)
Definition modal_empty_src : modal :=
  Modal (Ok (Some "")) (Ok (CopyButton (Ok "a cat on a skateboard") Raise)) Raise.

(** A dialog without video element, copy control or prompt-like element. *)
Definition modal_bare : modal := Modal Raise Raise Raise.

Definition link_plain : link := Link (Ok tt) Raise Raise.

Definition figure_full : figure :=
  Figure (Ok (Some "https://cdn/preview.mp4")) (Ok link_plain) (Ok tt) (Ok modal_full)
         closer_body.

Definition figure_empty_src : figure :=
  Figure (Ok (Some "https://cdn/preview.mp4")) (Ok link_plain) (Ok tt)
         (Ok modal_empty_src) closer_body.

(** A figure without link, and one that cannot be scrolled to. *)
Definition figure_no_link : figure :=
  Figure (Ok (Some "https://cdn/preview.mp4")) Raise (Ok tt) (Ok modal_full) closer_body.
Definition figure_no_scroll : figure :=
  Figure (Ok (Some "https://cdn/preview.mp4")) (Ok link_plain) Raise (Ok modal_full)
         closer_body.

(** A listing page whose figures are not tagged as [MediaFigure]: the wait
    for the primary selector times out, the selector matches nothing, and
    the page has a plain [figure] element. *)
Definition page_plain_figures : page :=
  Page (Ok tt) (Ok tt) Raise (Ok []) (Ok [figure_full]).

(** The same page with tagged figures. *)
Definition page_tagged_figures : page :=
  Page (Ok tt) (Ok tt) (Ok tt) (Ok [figure_no_link; figure_full; figure_no_scroll])
       (Ok [figure_full]).

(** ** Statements of the specification *)

(** The documents the downloader is written for: a bare list of records, or
    a wrapper object whose [videos] field, if it has one, is a list. *)
Definition record_file (data : json) : Prop :=
  match data with
  | JList _ => True
  | JObj m => match m !! "videos" with
              | None | Some (JList _) => True
              | Some _ => False
              end
  | _ => False
  end.

(** The records of a record file. *)
Definition records (data : json) : list json :=
  match data with
  | JList l => l
  | JObj m => match m !! "videos" with
              | Some (JList l) => l
              | _ => []
              end
  | _ => []
  end.

(** A record is written back as it was, or it is an object with a
    non-empty URL and comes back with the two local-path fields set. *)
Definition rewritten (video video' : json) : Prop :=
  video' = video \/
  exists (fields : gmap string json) (url save_path filename : string),
    video = JObj fields /\
    fields !! "video_url" = Some (JStr url) /\
    url <> "" /\
    video' = JObj (add_local_path save_path filename fields).

(** The downloads that failed so far, by the log. *)
Definition is_download_failure (e : event) : bool :=
  match e with
  | DownloadFailed _ => true
  | _ => false
  end.
Definition failed_downloads (s : state) : nat :=
  List.length (List.filter is_download_failure (log s)).

(** Idempotence of the downloader on a record file, as the specification
    states it: a second run right after the first sends no request and
    leaves the record file as the first run wrote it. *)
Definition rerun_idempotent (urlparse_path : string -> option string)
    (http_get : nat -> string -> response) (json_file : string) (s : state) : Prop :=
  let s1 := download_json_file urlparse_path http_get json_file s in
  let s2 := download_json_file urlparse_path http_get json_file s1 in
  requests s2 = requests s1 /\ files s2 !! json_file = files s1 !! json_file.

(** The precedence of the overlay's URL, as the specification states it: whenever the figure has an inline preview
    URL and the overlay gave a URL that is not null, the record of the
    figure carries the overlay's URL. *)
Definition overlay_url_wins : Prop :=
  forall (f : figure) (preview overlay_url : string) (data it : item) (closed : bool),
    fig_video_src f = Ok (Some preview) ->
    extract_prompt_from_popup (fig_modal f) = Ok (Some data) ->
    video_url data = Some overlay_url ->
    process_figure f = Ok (Extracted it closed) ->
    video_url it = Some overlay_url.

(** ** Further definitions *)

(** The concatenation of the chunks of a body. *)
Definition body_bytes (chunks : list string) : string :=
  fold_right String.append "" chunks.

(** The occurrences of a kind of event in the log. *)
Definition logged (kind : event -> bool) (s : state) : nat :=
  List.length (List.filter kind (log s)).

Definition is_download_ok (e : event) : bool :=
  match e with
  | DownloadOk _ => true
  | _ => false
  end.
Definition is_downloading (e : event) : bool :=
  match e with
  | Downloading _ => true
  | _ => false
  end.
Definition is_processing_error (e : event) : bool :=
  match e with
  | ProcessingError => true
  | _ => false
  end.

(** A path is as it was, or it was free and holds downloaded bytes now. *)
Definition kept_or_downloaded (s s' : state) (p : string) : Prop :=
  files s' !! p = files s !! p \/
  (files s !! p = None /\ exists content, files s' !! p = Some (FBytes content)).

(** The counters, the requests and the log moved together from [s] to [s']:
    one download counted per logged success, one failure per logged failed
    download or processing error, one request per logged start, and every
    start ended in a success or a failure. *)
Definition accounted (s s' : state) : Prop :=
  total_downloaded s' + logged is_download_ok s =
    total_downloaded s + logged is_download_ok s' /\
  total_failed s' + logged is_download_failure s + logged is_processing_error s =
    total_failed s + logged is_download_failure s' + logged is_processing_error s' /\
  List.length (requests s') + logged is_downloading s =
    List.length (requests s) + logged is_downloading s' /\
  logged is_downloading s' + logged is_download_ok s + logged is_download_failure s =
    logged is_downloading s + logged is_download_ok s' + logged is_download_failure s'.

(** A path the loop over the record files cannot use: no file, no JSON
    document, or a document without records to loop over. *)
Definition unreadable (s : state) (json_file : string) : Prop :=
  match files s !! json_file with
  | Some (FJson data) => select_videos data ≫= iterate = None
  | _ => True
  end.

(** [c in s] for a character. *)
Fixpoint contains (c : ascii) (s : string) : bool :=
  match s with
  | EmptyString => false
  | String c' s' => Ascii.eqb c' c || contains c s'
  end.

(** [find_video_files], lines 54-64, on what [os.walk(category_folder)]
    yields: for each directory of the tree, its path and the names of its
    files. *)
Definition find_video_files (walk : list (string * list string)) : list string :=
  '(root, names) ← walk;
  name ← names;
  if endswith name ".json" && negb (String.eqb name "metadata.json")
  then [path_join root name]
  else [].

(** [load_videos_from_json], lines 66-76: a file that cannot be read, or
    whose document has no [get], gives the empty list. *)
Definition load_videos_from_json (json_file : string) (s : state) : json :=
  match files s !! json_file with
  | Some (FJson (JObj m)) => default (JList []) (m !! "videos")
  | _ => JList []
  end.

(** The characters of the class of line 96, by their codes: the angle
    brackets, the colon, the double quote, the slash, the backslash, the
    bar, the question mark and the star. *)
Definition is_invalid_char (c : ascii) : bool :=
  bool_decide (nat_of_ascii c ∈ [60; 62; 58; 34; 47; 92; 124; 63; 42]).

(** The first [re.sub] of [sanitize_filename]: an underscore for every
    invalid character. *)
Fixpoint replace_invalid (s : string) : string :=
  match s with
  | EmptyString => EmptyString
  | String c s' => String (if is_invalid_char c then "_"%char else c) (replace_invalid s')
  end.

(** [re.sub(r'\s+', ' ', s)]; [in_run] tells that the character before was
    white space. *)
Fixpoint collapse_spaces (in_run : bool) (s : string) : string :=
  match s with
  | EmptyString => EmptyString
  | String c s' =>
      if is_space c then
        if in_run then collapse_spaces true s'
        else String " "%char (collapse_spaces true s')
      else String c (collapse_spaces false s')
  end.

(** [s[:n]] *)
Fixpoint string_take (n : nat) (s : string) : string :=
  match n, s with
  | S n', String c s' => String c (string_take n' s')
  | _, _ => EmptyString
  end.

(** [sanitize_filename], lines 92-98, on text of one-byte characters. *)
Definition sanitize_filename (filename : string) : string :=
  let sanitized := replace_invalid filename in
  let sanitized := strip (collapse_spaces false sanitized) in
  string_take 100 sanitized.

(** Every character of a string passes a test. *)
Fixpoint all_chars (test : ascii -> bool) (s : string) : bool :=
  match s with
  | EmptyString => true
  | String c s' => test c && all_chars test s'
  end.

(** A character of the cleaned text: not of the invalid class, and white
    space only as a blank. *)
Definition clean_char (c : ascii) : bool :=
  negb (is_invalid_char c) && (negb (is_space c) || Ascii.eqb c " ").


(** A button that [close_popup] may click: shown and enabled. *)
Definition clickable (b : button) : Prop :=
  is_displayed b = Ok true /\ is_enabled b = Ok true.


(** ** Saving the items and running a category *)

(** [s.split('_', 1)] when there is an underscore in [s]: the text before
    the first one and the text after it. *)
Fixpoint split_underscore (s : string) : option (string * string) :=
  match s with
  | EmptyString => None
  | String c s' =>
      if Ascii.eqb c "_" then Some (EmptyString, s')
      else '(before, after) ← split_underscore s'; Some (String c before, after)
  end.

(** [''.join(c for c in s if keep(c))] *)
Fixpoint keep_chars (keep : ascii -> bool) (s : string) : string :=
  match s with
  | EmptyString => EmptyString
  | String c s' => if keep c then String c (keep_chars keep s') else keep_chars keep s'
  end.

(** What [save_videos_data] writes: the JSON document and the rows of the
    CSV file, header first. *)
Record saved_files : Type := SavedFiles {
  json_path : string;
  json_document : json;
  csv_path : string;
  csv_rows : list (list string)
}.

(** A field of a CSV row: [None] is written as the empty field. *)
Definition csv_field (v : option string) : string :=
  match v with
  | Some s => s
  | None => ""
  end.

Section Orchestrator.

(** [str.isalnum] on a character. *)
Variable isalnum : ascii -> bool.

(** [str(v)] for a JSON value that is no string. *)
Variable repr : json -> string.

(** The listing page the browser shows for a link of the manifest. *)
Variable site : json -> page.

(** Lines 495-503: the folder for a name [Category_Subcategory]. *)
Definition save_folder (category_name : string) : string :=
  match split_underscore category_name with
  | Some (category, subcategory) => path_join category subcategory
  | None =>
      rstrip (keep_chars (fun c => isalnum c || bool_decide (c ∈ [" "; "-"; "_"]%char))
                         category_name)
  end.

(** [save_videos_data], lines 489-524: nothing for no items; [os.makedirs]
    raises for the empty path. *)
Definition save_videos_data (videos_data : list item) (category_name : string)
  : result (option saved_files) :=
  match videos_data with
  | [] => Ok None
  | _ :: _ =>
      let folder_path := save_folder category_name in
      if String.eqb folder_path "" then Raise
      else Ok (Some (SavedFiles
                       (path_join folder_path "videos.json")
                       (saved_json videos_data)
                       (path_join folder_path "videos.csv")
                       (["video_url"; "prompt"] ::
                        ((fun it => [csv_field (video_url it); csv_field (prompt it)])
                           <$> videos_data))))
  end.

(** [load_subcategories_from_metadata], lines 526-542, on a disk. *)
Definition load_subcategories_from_metadata (category_folder : string)
    (disk : gmap string file) : json :=
  match disk !! path_join category_folder "metadata.json" with
  | Some (FJson (JObj m)) =>
      let subcategories := default (JList []) (m !! "sub_categories") in
      match iterate subcategories with
      | Some _ => subcategories
      | None => JList []
      end
  | _ => JList []
  end.

(** [subcat[key]] *)
Definition subscript (subcat : json) (key : string) : result json :=
  match subcat with
  | JObj m => match m !! key with
              | Some v => Ok v
              | None => Raise
              end
  | _ => Raise
  end.

(** [f"{category_name}_{name}"] *)
Definition folder_name (category_name : string) (name : json) : string :=
  category_name +:+ "_" +:+ match name with
                            | JStr s => s
                            | _ => repr name
                            end.

(** How the run of a category ends. *)
Inductive category_outcome : Type :=
  | NoSubcategories                            (* lines 548-550 *)
  | Finished                                   (* line 578 *)
  | Aborted.                                   (* line 581 *)

(** The body of [try] of lines 558-571 for one subcategory: what it
    saves.  An exception is logged and the loop goes on. *)
Definition process_subcategory (category_name : string) (name link : json)
  : option saved_files :=
  match scrape_single_subcategory (site link) with
  | Ok [] => None
  | Ok ((_ :: _) as videos_data) =>
      match save_videos_data videos_data (folder_name category_name name) with
      | Ok saved => saved
      | Raise => None
      end
  | Raise => None
  end.

(** The loop of lines 554-576: what is saved, and whether the loop ran to
    its end. *)
Fixpoint process_subcategories (category_name : string) (subcategories : list json)
  : list saved_files * category_outcome :=
  match subcategories with
  | [] => ([], Finished)
  | subcat :: rest =>
      match (name ← subscript subcat "name";
             link ← subscript subcat "link";
             Ok (name, link)) with
      | Raise => ([], Aborted)
      | Ok (name, link) =>
          let saved := process_subcategory category_name name link in
          let '(saved_rest, outcome) := process_subcategories category_name rest in
          (option_list saved ++ saved_rest, outcome)
      end
  end.

(** What the entry of a well-formed manifest saves. *)
Definition entry_saved (category_name : string) (subcat : json) : option saved_files :=
  match subscript subcat "name", subscript subcat "link" with
  | Ok name, Ok link => process_subcategory category_name name link
  | _, _ => None
  end.

(** [process_category], lines 544-590, without the browser session that
    its [finally] closes. *)
Definition process_category (category_name : string) (disk : gmap string file)
  : list saved_files * category_outcome :=
  let subcategories := load_subcategories_from_metadata category_name disk in
  if truthy subcategories then
    match iterate subcategories with
    | Some entries => process_subcategories category_name entries
    | None => ([], Aborted)
    end
  else ([], NoSubcategories).

End Orchestrator.

(** ** Further samples *)

(** The sample disk once [a.mp4] is there. *)
Definition sample_disk_downloaded : state :=
  State {[ "cat/sub/videos.json" := FJson (JList [JObj sample_record]);
           "cat/sub/videos/a.mp4" := FBytes "old bytes" ]} [] [] 0 0.

(** Two records whose URLs end in the same segment. *)
Definition record_d1 : gmap string json := {[ "video_url" := JStr "https://x/d1/a.mp4" ]}.
Definition record_d2 : gmap string json := {[ "video_url" := JStr "https://x/d2/a.mp4" ]}.

(** What walking a category folder with one subcategory gives. *)
Definition sample_walk : list (string * list string) :=
  [ ("cat", ["metadata.json"]);
    ("cat/sub", ["videos.json"; "videos.csv"]);
    ("cat/sub/videos", ["a.mp4"]) ].

(** A disk with the record file the scraper writes for one item. *)
Definition sample_saved_disk : state :=
  State {[ "cat/sub/videos.json" :=
             FJson (saved_json [Item (Some "https://x/a.mp4") (Some "p")]) ]} [] [] 0 0.

(** ASCII letters and digits. *)
Definition ascii_isalnum (c : ascii) : bool :=
  let n := nat_of_ascii c in
  (((48 <=? n) && (n <=? 57)) || ((65 <=? n) && (n <=? 90)) ||
   ((97 <=? n) && (n <=? 122)))%nat.

(** A site with one listing page that has tagged figures. *)
Definition sample_site (link : json) : page :=
  match link with
  | JStr "https://site/a" => page_tagged_figures
  | _ => page_plain_figures
  end.

Definition sample_repr (v : json) : string := "None".

(** Manifest entries: one with items, one whose page gives none, one
    without link. *)
Definition entry_a : json :=
  JObj {[ "name" := JStr "Sub A"; "link" := JStr "https://site/a" ]}.
Definition entry_b : json :=
  JObj {[ "name" := JStr "Sub B"; "link" := JStr "https://site/b" ]}.
Definition entry_no_link : json := JObj {[ "name" := JStr "Sub C" ]}.

(** ** The steps of the dismissal chain, as the page sees them *)

(** The clicks at a list of screen positions. *)
Definition position_clicks (positions : list (Z * Z)) : list action :=
  (fun xy => ClickAt xy.1 xy.2) <$> positions.

(** The test of line 427 returns for the button, whatever its answer. *)
Definition test_returns (b : button) : Prop :=
  is_displayed b = Ok false \/
  (is_displayed b = Ok true /\ exists enabled, is_enabled b = Ok enabled).

(** The loop of line 426 gets to the button at index [i]: the test returned
    for every button before it. *)
Definition button_reached (buttons : list button) (i : nat) : Prop :=
  forall (j : nat) (b : button), j < i -> buttons !! j = Some b -> test_returns b.

(** Both clicks on the button at index [i] were attempted, and raised. *)
Definition button_failed (tried : list action) (selector : string) (i : nat) (b : button)
  : Prop :=
  click b = Raise /\ script_click b = Raise /\
  ClickButton selector i ∈ tried /\ ScriptClickButton selector i ∈ tried.

(** Every button the selector matches that the loop gets to and that is
    shown and enabled was clicked both ways, in vain. *)
Definition selector_failed (c : closer) (tried : list action) (selector : string) : Prop :=
  forall (buttons : list button) (i : nat) (b : button),
    find_buttons c selector = Ok buttons ->
    buttons !! i = Some b ->
    button_reached buttons i ->
    clickable b ->
    button_failed tried selector i b.

(** The loop of line 461 gets to the overlay at index [i]. *)
Definition backdrop_reached (overlays : list backdrop) (i : nat) : Prop :=
  forall (j : nat) (o : backdrop),
    j < i -> overlays !! j = Some o -> exists displayed, backdrop_displayed o = Ok displayed.

(** The overlay at index [i] is hidden, or was clicked in vain. *)
Definition backdrop_failed (tried : list action) (i : nat) (o : backdrop) : Prop :=
  backdrop_displayed o = Ok false \/
  (backdrop_displayed o = Ok true /\ backdrop_click o = Raise /\ ClickBackdrop i ∈ tried).

(** A page on which only a click at the centre of the window works. *)
Definition closer_centre : closer :=
  Closer Raise Raise (Ok (1280, 720)%Z)
         (fun xy => if ((xy.1 =? 640) && (xy.2 =? 360))%Z then Ok tt else Raise)
         (fun _ => Ok []) Raise (fun _ => Raise) (Ok []) Raise.

(** A page on which only the third overlay answers a click; the first is
    hidden. *)
Definition closer_backdrop : closer :=
  Closer Raise Raise Raise (fun _ => Raise) (fun _ => Raise) Raise (fun _ => Raise)
         (Ok [Backdrop (Ok false) (Ok tt); Backdrop (Ok true) Raise;
              Backdrop (Ok true) (Ok tt)])
         Raise.

(** A page on which the second escape key press raises. *)
Definition closer_escape : closer :=
  Closer Raise Raise Raise (fun _ => Raise) (fun _ => Raise) (Ok tt)
         (fun i => if (i =? 1)%nat then Raise else Ok tt) Raise Raise.

(** The button at index [i] closed the overlay: the loop got to it, the
    shown and enabled buttons before it were clicked in vain, and the
    attempts end with its click, or with its click that raised and its
    script click. *)
Definition button_closed (tried : list action) (selector : string)
    (buttons : list button) (i : nat) (b : button) : Prop :=
  buttons !! i = Some b /\ clickable b /\ button_reached buttons i /\
  (forall (j : nat) (b' : button),
     j < i -> buttons !! j = Some b' -> clickable b' ->
     button_failed tried selector j b') /\
  exists before : list action,
    (click b = Ok tt /\ tried = before ++ [ClickButton selector i]) \/
    (click b = Raise /\ script_click b = Ok tt /\
     tried = before ++ [ClickButton selector i; ScriptClickButton selector i]).

(** * Properties *)

(** ** Strings, paths and sample runs of the scraper *)

Example split_last_sep_example :
  split_last_sep "cat/sub/videos.json" = ("cat/sub/", "videos.json").
Proof. reflexivity. Qed.

Example dirname_example :
  dirname "cat/sub/videos.json" = "cat/sub" /\ dirname "/x" = "/" /\ dirname "x" = "".
Proof. repeat split; reflexivity. Qed.

Example path_join_example :
  path_join "cat/sub" "videos" = "cat/sub/videos" /\
  path_join "" "a" = "a" /\ path_join "a/" "b" = "a/b" /\ path_join "a" "/b" = "/b".
Proof. repeat split; reflexivity. Qed.

Example before_dot_example :
  before_dot "a.b.mp4" = "a" /\ before_dot "clip" = "clip" /\ before_dot ".mp4" = "".
Proof. repeat split; reflexivity. Qed.

Example endswith_example :
  endswith "/a.mp4" ".mp4" = true /\ endswith "mp4" ".mp4" = false /\
  endswith "/a.MP4" ".mp4" = false.
Proof. repeat split; reflexivity. Qed.

Example strip_example : strip "  a cat on a skateboard " = "a cat on a skateboard".
Proof. reflexivity. Qed.

Example extract_full_example :
  extract_prompt_from_popup (Ok modal_full) =
  Ok (Some (Item (Some "https://cdn/full.mp4") (Some "a cat on a skateboard"))).
Proof. reflexivity. Qed.

Example extract_timeout_example : extract_prompt_from_popup Raise = Ok None.
Proof. reflexivity. Qed.

Example close_popup_back_example :
  close_popup closer_back =
  (true, [ClickAt 320 180; ClickAt 960 180; ClickAt 640 360; ClickAt 320 540;
          ClickAt 960 540; BrowserBack]).
Proof. reflexivity. Qed.

Example close_popup_button_example :
  close_popup closer_button =
  (true, [ClickButton "[aria-label='Close']" 1;
          ScriptClickButton "[aria-label='Close']" 1]).
Proof. reflexivity. Qed.

Example close_popup_stuck_example : (close_popup closer_stuck).1 = false.
Proof. reflexivity. Qed.

Example scrape_tagged_example :
  scrape_single_subcategory page_tagged_figures =
  Ok [Item (Some "https://cdn/full.mp4") (Some "a cat on a skateboard")].
Proof. reflexivity. Qed.

(** ** The item extraction workflow *)

Lemma try_except_ok {A : Type} (body handler : result A) :
  (exists a, handler = Ok a) -> exists a, try_except body handler = Ok a.
Proof. intros [a ->]. destruct body; simpl; eauto. Qed.

Lemma extract_prompt_from_popup_ok (w : result modal) :
  exists r, extract_prompt_from_popup w = Ok r.
Proof. unfold extract_prompt_from_popup. apply try_except_ok. eauto. Qed.

Lemma process_figure_ok (f : figure) : exists o, process_figure f = Ok o.
Proof. unfold process_figure. apply try_except_ok. eauto. Qed.

Lemma process_figures_spec (figures : list figure) (videos_data : list item) :
  process_figures figures videos_data = Ok (videos_data ++ (figures ≫= appended)).
Proof.
  revert videos_data. induction figures as [|f rest IH]; intros acc; simpl.
  - by rewrite app_nil_r.
  - unfold appended at 1. destruct (process_figure_ok f) as [o ->]. simpl.
    rewrite IH. destruct o; simpl; rewrite <- ?app_assoc; done.
Qed.

Lemma scrape_single_subcategory_ok (p : page) :
  exists items, scrape_single_subcategory p = Ok items.
Proof. unfold scrape_single_subcategory. apply try_except_ok. eauto. Qed.

Lemma locate_figures_ok (p : page) : exists r, locate_figures p = Ok r.
Proof. unfold locate_figures. apply try_except_ok. eauto. Qed.

Lemma locate_figures_nonempty (p : page) (figures : list figure) :
  locate_figures p = Ok (Some figures) -> figures <> [].
Proof.
  unfold locate_figures.
  destruct (wait_primary p); simpl; [|discriminate].
  destruct (primary_figures p) as [[|f l]|]; simpl; try discriminate.
  - destruct (plain_figures p) as [[|f l]|]; simpl; congruence.
  - congruence.
Qed.

(** The result of the workflow in terms of its figures. *)
Lemma scrape_single_subcategory_spec (p : page) :
  scrape_single_subcategory p =
  Ok (match setup_driver p, navigate p, locate_figures p with
      | Ok _, Ok _, Ok (Some figures) => figures ≫= appended
      | _, _, _ => []
      end).
Proof.
  unfold scrape_single_subcategory.
  destruct (setup_driver p); simpl; [|done].
  destruct (navigate p); simpl; [|done].
  destruct (locate_figures p) as [[figures|]|] eqn:Hloc; simpl; [|done|done].
  rewrite process_figures_spec. simpl.
  apply locate_figures_nonempty in Hloc. destruct figures; [done|]. done.
Qed.

Lemma scrape_page_failure (p : page) :
  setup_driver p = Raise \/ navigate p = Raise \/ wait_primary p = Raise ->
  scrape_single_subcategory p = Ok [].
Proof.
  intros H. rewrite scrape_single_subcategory_spec. f_equal.
  destruct (setup_driver p); [|done]. destruct (navigate p); [|done].
  destruct H as [H|[H|H]]; try discriminate.
  unfold locate_figures. by rewrite H.
Qed.

(** C2: on a listing page where the primary selector matches nothing and
    plain [figure] elements exist, the workflow returns the empty sequence
    without looking at the plain figures: the wait for the primary selector
    raises before the fallback of line 169 is reached.  With the figure
    tagged, the same page gives its item. *)
Theorem C2_fallback_selector_not_reached :
  primary_figures page_plain_figures = Ok [] /\
  plain_figures page_plain_figures = Ok [figure_full] /\
  locate_figures page_plain_figures = Ok None /\
  scrape_single_subcategory page_plain_figures = Ok [] /\
  appended figure_full =
    [Item (Some "https://cdn/full.mp4") (Some "a cat on a skateboard")].
Proof. repeat split; reflexivity. Qed.

Lemma appended_skipped (f : figure) :
  fig_link f = Raise \/ figure_body f = Raise -> appended f = [].
Proof.
  unfold appended, process_figure. intros [H|H].
  - unfold figure_body. rewrite H.
    destruct (fig_video_src f); reflexivity.
  - rewrite H. reflexivity.
Qed.

(** The figures the loop runs over, once the wait for the primary selector
    has returned. *)
Lemma locate_figures_found (p : page) (figures : list figure) :
  wait_primary p = Ok tt ->
  figures <> [] ->
  primary_figures p = Ok figures \/
    (primary_figures p = Ok [] /\ plain_figures p = Ok figures) ->
  locate_figures p = Ok (Some figures).
Proof.
  intros Hwait Hne Hfig. unfold locate_figures. rewrite Hwait. simpl.
  destruct Hfig as [->|[-> ->]]; simpl; by destruct figures.
Qed.

(** What a figure adds when its link is found, the scroll succeeds, one of
    the three clicks succeeds and the overlay gives a prompt or a URL. *)
Lemma appended_activated (g : figure) (l : link) (data : item) :
  fig_link g = Ok l ->
  fig_scroll g = Ok tt ->
  link_click l = Ok tt \/ link_script_click l = Ok tt \/ link_pointer_click l = Ok tt ->
  extract_prompt_from_popup (fig_modal g) = Ok (Some data) ->
  nonempty (prompt data) || nonempty (video_url data) = true ->
  appended g =
    [Item (py_or (video_url data)
                 (match fig_video_src g with Ok preview => preview | Raise => None end))
          (prompt data)].
Proof.
  intros Hl Hscroll Hclick Hdata Hguard.
  assert (Hc : click_link l = true).
  { unfold click_link. destruct Hclick as [->|[->| ->]]; simpl;
      repeat (match goal with |- context [try_except ?b _] => destruct b end; simpl);
      reflexivity. }
  unfold appended, process_figure, figure_body.
  rewrite Hl, Hscroll, Hc, Hdata.
  destruct (fig_video_src g) as [preview|]; simpl; by rewrite Hguard.
Qed.



Lemma nonempty_Some (v : option string) : nonempty v = true -> v <> None.
Proof. by destruct v. Qed.

Lemma extracted_item_has_field (data : option item) (preview : option string) (it : item) :
  extracted_item data preview = Some it ->
  video_url it <> None \/ prompt it <> None.
Proof.
  unfold extracted_item. destruct data as [[url text]|]; [|done]. simpl.
  destruct (nonempty text) eqn:Htext; simpl.
  - intros [= <-]. right. simpl. by apply nonempty_Some.
  - destruct (nonempty url) eqn:Hurl; [|done].
    intros [= <-]. left. simpl. unfold py_or. rewrite Hurl. by apply nonempty_Some.
Qed.

Lemma appended_extracted (f : figure) (it : item) :
  it ∈ appended f ->
  exists data preview,
    extract_prompt_from_popup (fig_modal f) = Ok data /\
    try_except (fig_video_src f) (Ok None) = Ok preview /\
    extracted_item data preview = Some it.
Proof.
  unfold appended, process_figure, figure_body.
  destruct (fig_video_src f) as [preview|]; simpl.
  - destruct (fig_link f) as [l|]; simpl; [|by intros ?%elem_of_nil].
    destruct (fig_scroll f); simpl; [|by intros ?%elem_of_nil].
    destruct (click_link l); simpl; [|by intros ?%elem_of_nil].
    destruct (extract_prompt_from_popup_ok (fig_modal f)) as [data Hdata].
    rewrite Hdata. simpl.
    destruct (extracted_item data preview) as [it'|] eqn:Hit; simpl;
      [|by intros ?%elem_of_nil].
    intros ->%list_elem_of_singleton. eauto.
  - destruct (fig_link f) as [l|]; simpl; [|by intros ?%elem_of_nil].
    destruct (fig_scroll f); simpl; [|by intros ?%elem_of_nil].
    destruct (click_link l); simpl; [|by intros ?%elem_of_nil].
    destruct (extract_prompt_from_popup_ok (fig_modal f)) as [data Hdata].
    rewrite Hdata. simpl.
    destruct (extracted_item data None) as [it'|] eqn:Hit; simpl;
      [|by intros ?%elem_of_nil].
    intros ->%list_elem_of_singleton. eauto.
Qed.

Lemma item_record_fields (it : item) :
  item_record it !! "video_url" = Some (json_of_field (video_url it)) /\
  item_record it !! "prompt" = Some (json_of_field (prompt it)).
Proof.
  unfold item_record. split.
  - by rewrite lookup_insert_eq.
  - by rewrite lookup_insert_ne, lookup_singleton_eq.
Qed.

(** C4: every item of the sequence the workflow returns has a video URL or
    a prompt that is not null, and so has every record of the document
    written for the sequence; what was extracted is not appended when the
    extraction gave a null result or null for both fields. *)
Theorem C4_items_have_url_or_prompt :
  (forall (p : page) (items : list item) (it : item),
     scrape_single_subcategory p = Ok items -> it ∈ items ->
     (video_url it <> None \/ prompt it <> None) /\
     exists fields,
       JObj fields ∈ records (saved_json items) /\
       fields !! "video_url" = Some (json_of_field (video_url it)) /\
       fields !! "prompt" = Some (json_of_field (prompt it)) /\
       (fields !! "video_url" <> Some JNull \/ fields !! "prompt" <> Some JNull)) /\
  (forall preview : option string,
     extracted_item None preview = None /\
     extracted_item (Some (Item None None)) preview = None).
Proof.
  split; [|done].
  intros p items it Hscrape Hitem.
  assert (Hfield : video_url it <> None \/ prompt it <> None).
  { revert Hscrape Hitem. rewrite scrape_single_subcategory_spec. intros [= <-].
    destruct (setup_driver p); [|by intros ?%elem_of_nil].
    destruct (navigate p); [|by intros ?%elem_of_nil].
    destruct (locate_figures p) as [[figures|]|]; try by intros ?%elem_of_nil.
    intros (f & Hit & _)%list_elem_of_bind.
    apply appended_extracted in Hit as (data & preview & _ & _ & Hit).
    by eapply extracted_item_has_field. }
  split; [exact Hfield|].
  exists (item_record it). destruct (item_record_fields it) as [-> ->].
  split; [|split; [done|split; [done|]]].
  - cbn [saved_json records]. apply list_elem_of_fmap. by exists it.
  - destruct it as [[url|] [text|]]; cbn; destruct Hfield; (by left) || (by right).
Qed.

Lemma C4_items_have_url_or_prompt_witness :
  video_url (Item (Some "https://cdn/full.mp4") (Some "a cat on a skateboard")) <> None \/
  prompt (Item (Some "https://cdn/full.mp4") (Some "a cat on a skateboard")) <> None.
Proof.
  apply (proj1 C4_items_have_url_or_prompt page_tagged_figures
           [Item (Some "https://cdn/full.mp4") (Some "a cat on a skateboard")]
           (Item (Some "https://cdn/full.mp4") (Some "a cat on a skateboard"))).
  - reflexivity.
  - apply list_elem_of_singleton. reflexivity.
Defined.

(** C5, counterexample: a figure with an inline preview URL whose overlay
    has a video element with an empty [src] and a prompt.  The extracted URL
    is the empty string, which is not null, and the record carries the
    preview URL. *)
Lemma C5_empty_overlay_url_loses : ~ overlay_url_wins.
Proof.
  intros H.
  specialize (H figure_empty_src "https://cdn/preview.mp4" ""
                (Item (Some "") (Some "a cat on a skateboard"))
                (Item (Some "https://cdn/preview.mp4") (Some "a cat on a skateboard"))
                true eq_refl eq_refl eq_refl eq_refl).
  discriminate H.
Qed.

Lemma process_figure_extracted (f : figure) (it : item) (closed : bool) :
  process_figure f = Ok (Extracted it closed) -> it ∈ appended f.
Proof. unfold appended. intros ->. by apply list_elem_of_singleton. Qed.

(** C5, amended: whenever the figure has an inline preview URL and the
    overlay gave a URL that is neither null nor empty, a record is appended
    for what was extracted and it carries the overlay's URL. *)
Theorem C5_nonempty_overlay_url_wins :
  forall (f : figure) (preview overlay_url : string) (data : item),
    fig_video_src f = Ok (Some preview) ->
    extract_prompt_from_popup (fig_modal f) = Ok (Some data) ->
    video_url data = Some overlay_url ->
    overlay_url <> "" ->
    extracted_item (Some data) (Some preview) =
      Some (Item (Some overlay_url) (prompt data)) /\
    forall (it : item) (closed : bool),
      process_figure f = Ok (Extracted it closed) ->
      video_url it = Some overlay_url.
Proof.
  intros f preview overlay_url [url text] Hsrc Hdata Hurl Hne. simpl in Hurl. subst url.
  assert (Hnonempty : nonempty (Some overlay_url) = true).
  { simpl. apply negb_true_iff. by apply String.eqb_neq. }
  assert (Hitem : extracted_item (Some (Item (Some overlay_url) text)) (Some preview) =
                  Some (Item (Some overlay_url) text)).
  { unfold extracted_item, py_or. cbn [video_url prompt]. rewrite Hnonempty.
    by rewrite orb_true_r. }
  split; [exact Hitem|].
  intros it closed Hit%process_figure_extracted.
  apply appended_extracted in Hit as (data' & preview' & Hdata' & Hpreview & Hit).
  rewrite Hdata in Hdata'. injection Hdata' as <-.
  rewrite Hsrc in Hpreview. injection Hpreview as <-.
  rewrite Hitem in Hit. by injection Hit as <-.
Qed.

Lemma C5_nonempty_overlay_url_wins_witness :
  video_url (Item (Some "https://cdn/full.mp4") (Some "a cat on a skateboard")) =
    Some "https://cdn/full.mp4".
Proof.
  refine (proj2 (C5_nonempty_overlay_url_wins figure_full "https://cdn/preview.mp4"
                   "https://cdn/full.mp4"
                   (Item (Some "https://cdn/full.mp4") (Some "a cat on a skateboard"))
                   eq_refl eq_refl eq_refl _) _ true eq_refl).
  discriminate.
Defined.

(** ** The field extraction *)

(** C7: the extraction routine never raises; its result is null exactly
    when the wait for the overlay raised; and with an overlay it is a record
    whose [video_url] is null when the overlay has no video element and whose
    [prompt] is null when it has neither the copy control nor a prompt-like
    element. *)
Theorem C7_extraction_result :
  forall wait_modal : result modal,
    (exists r, extract_prompt_from_popup wait_modal = Ok r) /\
    (extract_prompt_from_popup wait_modal = Ok None <-> wait_modal = Raise) /\
    (forall m : modal,
       wait_modal = Ok m ->
       exists it,
         extract_prompt_from_popup wait_modal = Ok (Some it) /\
         (modal_video_src m = Raise -> video_url it = None) /\
         (modal_copy_button m = Raise -> modal_prompt_text m = Raise ->
          prompt it = None)).
Proof.
  intros w. split; [apply extract_prompt_from_popup_ok|].
  assert (Hsome : forall m, w = Ok m ->
            exists it, extract_prompt_from_popup w = Ok (Some it) /\
              (modal_video_src m = Raise -> video_url it = None) /\
              (modal_copy_button m = Raise -> modal_prompt_text m = Raise ->
               prompt it = None)).
  { intros [src button text] ->. unfold extract_prompt_from_popup. simpl.
    destruct src as [src|]; simpl.
    - destruct button as [[[t|] nearby]|]; simpl.
      + destruct (String.eqb (strip t) "" || String.eqb (strip t) "true"); simpl.
        * destruct nearby; simpl; eexists; (split; [reflexivity|]); split; done.
        * eexists; (split; [reflexivity|]); split; done.
      + destruct text; simpl; eexists; (split; [reflexivity|]); split; done.
      + destruct text; simpl; eexists; (split; [reflexivity|]); split; done.
    - destruct button as [[[t|] nearby]|]; simpl.
      + destruct (String.eqb (strip t) "" || String.eqb (strip t) "true"); simpl.
        * destruct nearby; simpl; eexists; (split; [reflexivity|]); split; done.
        * eexists; (split; [reflexivity|]); split; done.
      + destruct text; simpl; eexists; (split; [reflexivity|]); split; done.
      + destruct text; simpl; eexists; (split; [reflexivity|]); split; done. }
  split; [|exact Hsome].
  split.
  - destruct w as [m|]; [|done].
    destruct (Hsome m eq_refl) as (it & -> & _). discriminate.
  - intros ->. reflexivity.
Qed.

Lemma C7_extraction_result_witness :
  exists it,
    extract_prompt_from_popup (Ok modal_bare) = Ok (Some it) /\
    video_url it = None /\ prompt it = None.
Proof.
  destruct (proj2 (proj2 (C7_extraction_result (Ok modal_bare))) modal_bare eq_refl)
    as (it & Hit & Hurl & Hprompt).
  exists it. split; [exact Hit|]. split; [apply Hurl|apply Hprompt]; reflexivity.
Defined.

(** ** The popup dismissal chain *)

Lemma click_each_position_actions (c : closer) (positions : list (Z * Z)) (a : action) :
  a ∈ (click_each_position c positions).2 -> strategy_of a = ScreenPositions.
Proof.
  induction positions as [|[x y] rest IH]; simpl; [by intros ?%elem_of_nil|].
  destruct (pointer_click c (x, y)).
  - by intros ->%list_elem_of_singleton.
  - destruct (click_each_position c rest) as [closed tried]. simpl in *.
    intros [->|?]%elem_of_cons; [done|auto].
Qed.

Lemma click_each_button_actions (selector : string) (buttons : list button)
    (index : nat) (a : action) :
  a ∈ (click_each_button selector index buttons).2 -> strategy_of a = CloseButtons.
Proof.
  revert index. induction buttons as [|b rest IH]; intros index; simpl;
    [by intros ?%elem_of_nil|].
  destruct (is_displayed b) as [[]|]; simpl;
    [|by apply IH|by intros ?%elem_of_nil].
  destruct (is_enabled b) as [[]|]; simpl;
    [|by apply IH|by intros ?%elem_of_nil].
  destruct (click b); [by intros ->%list_elem_of_singleton|].
  destruct (script_click b).
  - intros [->|H]%elem_of_cons; [done|]. by apply list_elem_of_singleton in H as ->.
  - specialize (IH (S index)).
    destruct (click_each_button selector (S index) rest) as [closed tried]. simpl in *.
    intros [->|H]%elem_of_cons; [done|]. apply elem_of_cons in H as [->|?]; auto.
Qed.

Lemma try_close_buttons_actions (c : closer) (selectors : list string) (a : action) :
  a ∈ (try_close_buttons c selectors).2 -> strategy_of a = CloseButtons.
Proof.
  induction selectors as [|selector rest IH]; simpl; [by intros ?%elem_of_nil|].
  set (first := match find_buttons c selector with
                | Ok buttons => click_each_button selector 0 buttons
                | Raise => (false, [])
                end).
  assert (Hfirst : a ∈ first.2 -> strategy_of a = CloseButtons).
  { subst first. destruct (find_buttons c selector); simpl;
      [apply click_each_button_actions|by intros ?%elem_of_nil]. }
  destruct first as [[] tried]; simpl in *; [exact Hfirst|].
  destruct (try_close_buttons c rest) as [closed tried']. simpl in *.
  intros [?|?]%elem_of_app; auto.
Qed.

Lemma send_escapes_actions (c : closer) (count i : nat) (a : action) :
  a ∈ (send_escapes c i count).2 -> strategy_of a = EscapeKey.
Proof.
  revert i. induction count as [|count IH]; intros i; simpl; [by intros ?%elem_of_nil|].
  destruct (send_escape c i).
  - specialize (IH (S i)). destruct (send_escapes c (S i) count) as [sent tried].
    simpl in *. intros [->|?]%elem_of_cons; auto.
  - by intros ->%list_elem_of_singleton.
Qed.

Lemma send_escapes_length (c : closer) (count i : nat) :
  List.length (send_escapes c i count).2 <= count.
Proof.
  revert i. induction count as [|count IH]; intros i; simpl; [done|].
  destruct (send_escape c i); simpl; [|lia].
  specialize (IH (S i)). destruct (send_escapes c (S i) count). simpl in *. lia.
Qed.

Lemma click_each_backdrop_actions (overlays : list backdrop) (index : nat) (a : action) :
  a ∈ (click_each_backdrop index overlays).2 -> strategy_of a = BackdropClick.
Proof.
  revert index. induction overlays as [|o rest IH]; intros index; simpl;
    [by intros ?%elem_of_nil|].
  destruct (backdrop_displayed o) as [[]|]; [|by apply IH|by intros ?%elem_of_nil].
  destruct (backdrop_click o); [by intros ->%list_elem_of_singleton|].
  specialize (IH (S index)).
  destruct (click_each_backdrop (S index) rest) as [closed tried]. simpl in *.
  intros [->|?]%elem_of_cons; auto.
Qed.

(** A step attempts interactions of its own kind only. *)
Lemma run_strategy_actions (c : closer) (st : strategy) (a : action) :
  a ∈ (run_strategy c st).2 -> strategy_of a = st.
Proof.
  destruct st; cbn [run_strategy].
  - unfold try_body_click. destruct (body_element c); simpl;
      [by intros ->%list_elem_of_singleton|by intros ?%elem_of_nil].
  - unfold try_screen_positions. destruct (window_size c) as [[w h]|];
      [apply click_each_position_actions|by intros ?%elem_of_nil].
  - apply try_close_buttons_actions.
  - unfold try_escape_key. destruct (escape_body c);
      [apply send_escapes_actions|by intros ?%elem_of_nil].
  - unfold try_backdrop_click. destruct (find_backdrops c);
      [apply click_each_backdrop_actions|by intros ?%elem_of_nil].
  - by intros ->%list_elem_of_singleton.
Qed.

Lemma close_popup_first_success (c : closer) :
  close_popup c = first_success c fallback_chain.
Proof. reflexivity. Qed.

(** The steps a chain runs: the ones it ran are a prefix of the chain, all
    but the last of them failed, and it fails only at the end of the chain. *)
Lemma first_success_prefix (c : closer) (chain : list strategy) :
  exists ran rest : list strategy,
    chain = ran ++ rest /\
    (first_success c chain).2 = ran ≫= (fun st => (run_strategy c st).2) /\
    if (first_success c chain).1
    then exists failed st,
           ran = failed ++ [st] /\
           Forall (fun st' => (run_strategy c st').1 = false) failed /\
           (run_strategy c st).1 = true
    else rest = [] /\ Forall (fun st' => (run_strategy c st').1 = false) ran.
Proof.
  induction chain as [|st chain (ran & rest & Hchain & Htried & Hres)]; simpl.
  - exists [], []. repeat split; constructor.
  - unfold or_else. destruct (run_strategy c st) as [[] tried] eqn:Hst; simpl.
    + exists [st], chain. split; [done|]. simpl. rewrite Hst, app_nil_r.
      split; [done|]. exists [], st. rewrite Hst. repeat split; constructor.
    + exists (st :: ran), rest. split; [by rewrite Hchain|].
      simpl. rewrite Hst, Htried. split; [done|].
      destruct (first_success c chain).1.
      * destruct Hres as (failed & st' & -> & Hfailed & Hok).
        exists (st :: failed), st'. split; [done|]. split; [|done].
        constructor; [by rewrite Hst|done].
      * destruct Hres as [-> Hfailed]. split; [done|].
        constructor; [by rewrite Hst|done].
Qed.

(** What each step attempts, and when it succeeds. *)

Lemma click_each_position_first (c : closer) (positions : list (Z * Z)) :
  if (click_each_position c positions).1
  then exists (failed : list (Z * Z)) (xy : Z * Z) (rest : list (Z * Z)),
         positions = failed ++ xy :: rest /\
         Forall (fun xy' => pointer_click c xy' = Raise) failed /\
         pointer_click c xy = Ok tt /\
         (click_each_position c positions).2 = position_clicks (failed ++ [xy])
  else Forall (fun xy => pointer_click c xy = Raise) positions /\
       (click_each_position c positions).2 = position_clicks positions.
Proof.
  induction positions as [|[x y] rest IH]; simpl; [by split|].
  destruct (pointer_click c (x, y)) as [[]|] eqn:Hxy; simpl.
  - exists [], (x, y), rest. by repeat split.
  - destruct (click_each_position c rest) as [[] tried]; simpl in *.
    + destruct IH as (failed & xy & rest' & -> & Hfailed & Hok & ->).
      exists ((x, y) :: failed), xy, rest'. repeat split; auto.
    + destruct IH as [Hall ->]. split; auto.
Qed.

Lemma send_escapes_all (c : closer) (count i : nat) :
  (forall j, j < count -> send_escape c (i + j) = Ok tt) ->
  send_escapes c i count = (true, SendEscape <$> seq i count).
Proof.
  revert i. induction count as [|count IH]; intros i H; simpl; [done|].
  rewrite <- (Nat.add_0_r i) at 1. rewrite H by lia.
  rewrite IH; [done|]. intros j Hj. replace (S i + j) with (i + S j) by lia.
  apply H. lia.
Qed.

Lemma send_escapes_first_raise (c : closer) (count i k : nat) :
  k < count ->
  (forall j, j < k -> send_escape c (i + j) = Ok tt) ->
  send_escape c (i + k) = Raise ->
  send_escapes c i count = (false, SendEscape <$> seq i (S k)).
Proof.
  revert i k. induction count as [|count IH]; intros i k Hk Hbefore Hraise; [lia|].
  cbn [send_escapes]. destruct k as [|k].
  - rewrite Nat.add_0_r in Hraise. by rewrite Hraise.
  - rewrite <- (Nat.add_0_r i) at 1. rewrite Hbefore by lia.
    rewrite (IH (S i) k); [done|lia| |].
    + intros j Hj. replace (S i + j) with (i + S j) by lia. apply Hbefore. lia.
    + by replace (S i + k) with (i + S k) by lia.
Qed.

Lemma button_failed_mono (tried tried' : list action) (selector : string) (i : nat)
    (b : button) :
  (forall a, a ∈ tried -> a ∈ tried') ->
  button_failed tried selector i b -> button_failed tried' selector i b.
Proof. intros Hsub (? & ? & ? & ?). repeat split; auto. Qed.

Lemma button_reached_tail (b0 : button) (rest : list button) (i : nat) :
  button_reached (b0 :: rest) (S i) -> test_returns b0 /\ button_reached rest i.
Proof.
  intros H. split; [apply (H 0); [lia|done]|].
  intros j b Hj Hb. apply (H (S j)); [lia|done].
Qed.

Lemma click_each_button_failed (selector : string) (buttons : list button) (index : nat) :
  (click_each_button selector index buttons).1 = false ->
  forall (i : nat) (b : button),
    buttons !! i = Some b -> button_reached buttons i -> clickable b ->
    button_failed (click_each_button selector index buttons).2 selector (index + i) b.
Proof.
  revert index. induction buttons as [|b0 rest IH]; intros index Hres i b Hi Hreach Hclk;
    [done|].
  destruct i as [|i]; simpl in Hi.
  - injection Hi as ->. destruct Hclk as [Hd He]. rewrite Nat.add_0_r.
    simpl in *. rewrite Hd in *. simpl in *. rewrite He in *.
    destruct (click b) eqn:Hc; [done|]. destruct (script_click b) eqn:Hs; [done|].
    destruct (click_each_button selector (S index) rest) as [closed tried]. simpl in *.
    repeat split; [done|done|apply list_elem_of_here
                  |apply list_elem_of_further, list_elem_of_here].
  - apply button_reached_tail in Hreach as [Htest Hreach].
    specialize (IH (S index)). replace (index + S i) with (S index + i) by lia.
    simpl in Hres |- *.
    destruct Htest as [Hd|[Hd [e He]]]; rewrite Hd in *; simpl in *; [by apply IH|].
    rewrite He in *. destruct e; [|by apply IH].
    destruct (click b0); [done|]. destruct (script_click b0); [done|].
    destruct (click_each_button selector (S index) rest) as [closed tried]. simpl in *.
    apply (button_failed_mono tried); [|by apply IH].
    intros a Ha. by do 2 apply list_elem_of_further.
Qed.

Lemma click_each_button_closed_cons (selector : string) (index : nat) (b0 : button)
    (rest : list button) (pre tried : list action) :
  test_returns b0 ->
  (clickable b0 -> button_failed (pre ++ tried) selector index b0) ->
  (exists (i : nat) (b : button),
     rest !! i = Some b /\ clickable b /\ button_reached rest i /\
     (forall (j : nat) (b' : button),
        j < i -> rest !! j = Some b' -> clickable b' ->
        button_failed tried selector (S index + j) b') /\
     exists before : list action,
       (click b = Ok tt /\ tried = before ++ [ClickButton selector (S index + i)]) \/
       (click b = Raise /\ script_click b = Ok tt /\
        tried = before ++ [ClickButton selector (S index + i);
                           ScriptClickButton selector (S index + i)])) ->
  exists (i : nat) (b : button),
    (b0 :: rest) !! i = Some b /\ clickable b /\ button_reached (b0 :: rest) i /\
    (forall (j : nat) (b' : button),
       j < i -> (b0 :: rest) !! j = Some b' -> clickable b' ->
       button_failed (pre ++ tried) selector (index + j) b') /\
    exists before : list action,
      (click b = Ok tt /\ pre ++ tried = before ++ [ClickButton selector (index + i)]) \/
      (click b = Raise /\ script_click b = Ok tt /\
       pre ++ tried = before ++ [ClickButton selector (index + i);
                                 ScriptClickButton selector (index + i)]).
Proof.
  intros Htest Hb0 (i & b & Hi & Hclk & Hreach & Hfailed & before & Hlast).
  exists (S i), b. split; [done|]. split; [done|]. split; [|split].
  - intros [|j] b' Hj Hb'; simpl in Hb'; [by injection Hb' as <-|].
    apply (Hreach j); [lia|done].
  - intros [|j] b' Hj Hb' Hclk'; simpl in Hb'.
    + injection Hb' as <-. rewrite Nat.add_0_r. by apply Hb0.
    + replace (index + S j) with (S index + j) by lia.
      apply (button_failed_mono tried); [|apply Hfailed; [lia|done|done]].
      intros a Ha. apply elem_of_app. by right.
  - exists (pre ++ before). replace (index + S i) with (S index + i) by lia.
    rewrite <- !app_assoc.
    destruct Hlast as [[Hc ->]|(Hc & Hs & ->)]; [by left|by right].
Qed.

Lemma click_each_button_closed (selector : string) (buttons : list button) (index : nat) :
  (click_each_button selector index buttons).1 = true ->
  exists (i : nat) (b : button),
    buttons !! i = Some b /\ clickable b /\ button_reached buttons i /\
    (forall (j : nat) (b' : button),
       j < i -> buttons !! j = Some b' -> clickable b' ->
       button_failed (click_each_button selector index buttons).2 selector (index + j) b') /\
    exists before : list action,
      (click b = Ok tt /\
       (click_each_button selector index buttons).2 =
         before ++ [ClickButton selector (index + i)]) \/
      (click b = Raise /\ script_click b = Ok tt /\
       (click_each_button selector index buttons).2 =
         before ++ [ClickButton selector (index + i);
                    ScriptClickButton selector (index + i)]).
Proof.
  revert index. induction buttons as [|b0 rest IH]; intros index; simpl; [done|].
  destruct (is_displayed b0) as [[]|] eqn:Hd; simpl; [| |done].
  - destruct (is_enabled b0) as [[]|] eqn:He; simpl; [| |done].
    + destruct (click b0) as [[]|] eqn:Hc; simpl.
      { intros _. exists 0, b0. rewrite Nat.add_0_r.
        split; [done|]. split; [done|]. split; [intros j ? Hj; lia|].
        split; [intros j ? Hj; lia|]. exists []. by left. }
      destruct (script_click b0) as [[]|] eqn:Hs; simpl.
      { intros _. exists 0, b0. rewrite Nat.add_0_r.
        split; [done|]. split; [done|]. split; [intros j ? Hj; lia|].
        split; [intros j ? Hj; lia|]. exists []. by right. }
      specialize (IH (S index)).
      destruct (click_each_button selector (S index) rest) as [closed tried]. simpl in *.
      intros Hres.
      apply (click_each_button_closed_cons selector index b0 rest
               [ClickButton selector index; ScriptClickButton selector index] tried);
        [right; eauto| |by apply IH].
      intros _. repeat split; [done|done|apply list_elem_of_here
                              |apply list_elem_of_further, list_elem_of_here].
    + intros Hres.
      apply (click_each_button_closed_cons selector index b0 rest [] _);
        [right; eauto| |by apply IH].
      intros [_ He']. congruence.
  - intros Hres.
    apply (click_each_button_closed_cons selector index b0 rest [] _);
      [by left| |by apply IH].
    intros [Hd' _]. congruence.
Qed.

Lemma click_each_button_sound (selector : string) (buttons : list button) (index : nat)
    (a : action) :
  a ∈ (click_each_button selector index buttons).2 ->
  exists (i : nat) (b : button),
    buttons !! i = Some b /\ clickable b /\
    (a = ClickButton selector (index + i) \/
     (a = ScriptClickButton selector (index + i) /\ click b = Raise)).
Proof.
  revert index. induction buttons as [|b0 rest IH]; intros index; simpl;
    [by intros ?%elem_of_nil|].
  assert (Hrest : a ∈ (click_each_button selector (S index) rest).2 ->
            exists (i : nat) (b : button),
              (b0 :: rest) !! i = Some b /\ clickable b /\
              (a = ClickButton selector (index + i) \/
               (a = ScriptClickButton selector (index + i) /\ click b = Raise))).
  { intros (i & b & Hi & Hclk & Ha)%IH. exists (S i), b.
    by replace (index + S i) with (S index + i) by lia. }
  destruct (is_displayed b0) as [[]|] eqn:Hd; simpl; [|done|by intros ?%elem_of_nil].
  destruct (is_enabled b0) as [[]|] eqn:He; simpl; [|done|by intros ?%elem_of_nil].
  assert (Hhere : a = ClickButton selector index \/
                  (a = ScriptClickButton selector index /\ click b0 = Raise) ->
            exists (i : nat) (b : button),
              (b0 :: rest) !! i = Some b /\ clickable b /\
              (a = ClickButton selector (index + i) \/
               (a = ScriptClickButton selector (index + i) /\ click b = Raise))).
  { intros Ha. exists 0, b0. rewrite Nat.add_0_r. by repeat split. }
  destruct (click b0) eqn:Hc; [intros ->%list_elem_of_singleton; apply Hhere; by left|].
  destruct (script_click b0).
  - intros [->|Ha]%elem_of_cons; [apply Hhere; by left|].
    apply list_elem_of_singleton in Ha as ->. apply Hhere. by right.
  - destruct (click_each_button selector (S index) rest) as [closed tried]. simpl in *.
    intros [->|Ha]%elem_of_cons; [apply Hhere; by left|].
    apply elem_of_cons in Ha as [->|Ha]; [apply Hhere; by right|by apply Hrest].
Qed.

Lemma selector_failed_mono (c : closer) (tried tried' : list action) (selector : string) :
  (forall a, a ∈ tried -> a ∈ tried') ->
  selector_failed c tried selector -> selector_failed c tried' selector.
Proof.
  intros Hsub H buttons i b Hfind Hi Hreach Hclk.
  apply (button_failed_mono tried); [done|]. by apply (H buttons).
Qed.

Lemma button_closed_prepend (pre tried : list action) (selector : string)
    (buttons : list button) (i : nat) (b : button) :
  button_closed tried selector buttons i b ->
  button_closed (pre ++ tried) selector buttons i b.
Proof.
  intros (Hi & Hclk & Hreach & Hfailed & before & Hlast).
  split; [done|]. split; [done|]. split; [done|]. split.
  - intros j b' Hj Hb' Hclk'. apply (button_failed_mono tried); [|by apply Hfailed].
    intros a Ha. apply elem_of_app. by right.
  - exists (pre ++ before). rewrite <- !app_assoc.
    destruct Hlast as [[Hc ->]|(Hc & Hs & ->)]; [by left|by right].
Qed.

(** The buttons of one selector, lines 425-442. *)
Lemma selector_buttons_failed (c : closer) (selector : string) :
  (match find_buttons c selector with
   | Ok buttons => click_each_button selector 0 buttons
   | Raise => (false, [])
   end).1 = false ->
  selector_failed c (match find_buttons c selector with
                     | Ok buttons => click_each_button selector 0 buttons
                     | Raise => (false, [])
                     end).2 selector.
Proof.
  intros Hres buttons i b Hfind Hi Hreach Hclk. rewrite Hfind in *.
  by apply (click_each_button_failed selector buttons 0 Hres i b).
Qed.

Lemma selector_buttons_closed (c : closer) (selector : string) :
  (match find_buttons c selector with
   | Ok buttons => click_each_button selector 0 buttons
   | Raise => (false, [])
   end).1 = true ->
  exists (buttons : list button) (i : nat) (b : button),
    find_buttons c selector = Ok buttons /\
    button_closed (match find_buttons c selector with
                   | Ok buttons => click_each_button selector 0 buttons
                   | Raise => (false, [])
                   end).2 selector buttons i b.
Proof.
  destruct (find_buttons c selector) as [buttons|]; [|done].
  intros (i & b & H)%click_each_button_closed. by exists buttons, i, b.
Qed.

Lemma try_close_buttons_failed (c : closer) (selectors : list string) :
  (try_close_buttons c selectors).1 = false ->
  Forall (selector_failed c (try_close_buttons c selectors).2) selectors.
Proof.
  induction selectors as [|selector rest IH]; simpl; [constructor|].
  set (first := match find_buttons c selector with
                | Ok buttons => click_each_button selector 0 buttons
                | Raise => (false, [])
                end).
  assert (Hfirst : first.1 = false -> selector_failed c first.2 selector)
    by apply selector_buttons_failed.
  destruct first as [[] tried]; simpl in *; [done|].
  destruct (try_close_buttons c rest) as [closed tried']. simpl in *.
  intros Hres. constructor.
  - apply (selector_failed_mono c tried); [|by apply Hfirst].
    intros a Ha. apply elem_of_app. by left.
  - eapply Forall_impl; [by apply IH|]. intros selector'.
    apply selector_failed_mono. intros a Ha. apply elem_of_app. by right.
Qed.

Lemma try_close_buttons_closed (c : closer) (selectors : list string) :
  (try_close_buttons c selectors).1 = true ->
  exists (earlier : list string) (selector : string) (later : list string)
         (buttons : list button) (i : nat) (b : button),
    selectors = earlier ++ selector :: later /\
    Forall (selector_failed c (try_close_buttons c selectors).2) earlier /\
    find_buttons c selector = Ok buttons /\
    button_closed (try_close_buttons c selectors).2 selector buttons i b.
Proof.
  induction selectors as [|selector rest IH]; simpl; [done|].
  set (first := match find_buttons c selector with
                | Ok buttons => click_each_button selector 0 buttons
                | Raise => (false, [])
                end).
  assert (Hfailed : first.1 = false -> selector_failed c first.2 selector)
    by apply selector_buttons_failed.
  assert (Hclosed : first.1 = true ->
            exists (buttons : list button) (i : nat) (b : button),
              find_buttons c selector = Ok buttons /\
              button_closed first.2 selector buttons i b)
    by apply selector_buttons_closed.
  destruct first as [[] tried]; simpl in *.
  - intros _. destruct Hclosed as (buttons & i & b & Hfind & Hb); [done|].
    exists [], selector, rest, buttons, i, b.
    split; [done|]. split; [constructor|]. by split.
  - destruct (try_close_buttons c rest) as [closed tried']. simpl in *.
    intros Hres.
    destruct (IH Hres) as (earlier & sel & later & buttons & i & b & -> & Hearlier & Hfind & Hb).
    exists (selector :: earlier), sel, later, buttons, i, b.
    split; [done|]. split; [|split; [done|by apply button_closed_prepend]].
    constructor.
    + apply (selector_failed_mono c tried); [|by apply Hfailed].
      intros a Ha. apply elem_of_app. by left.
    + eapply Forall_impl; [exact Hearlier|]. intros selector'.
      apply selector_failed_mono. intros a Ha. apply elem_of_app. by right.
Qed.

Lemma try_close_buttons_sound (c : closer) (selectors : list string) (a : action) :
  a ∈ (try_close_buttons c selectors).2 ->
  exists (selector : string) (buttons : list button) (i : nat) (b : button),
    selector ∈ selectors /\ find_buttons c selector = Ok buttons /\
    buttons !! i = Some b /\ clickable b /\
    (a = ClickButton selector i \/ (a = ScriptClickButton selector i /\ click b = Raise)).
Proof.
  induction selectors as [|selector rest IH]; simpl; [by intros ?%elem_of_nil|].
  set (first := match find_buttons c selector with
                | Ok buttons => click_each_button selector 0 buttons
                | Raise => (false, [])
                end).
  assert (Hfirst : a ∈ first.2 ->
            exists (selector' : string) (buttons : list button) (i : nat) (b : button),
              selector' ∈ selector :: rest /\ find_buttons c selector' = Ok buttons /\
              buttons !! i = Some b /\ clickable b /\
              (a = ClickButton selector' i \/
               (a = ScriptClickButton selector' i /\ click b = Raise))).
  { subst first. destruct (find_buttons c selector) as [buttons|] eqn:Hfind; [|by intros ?%elem_of_nil].
    intros (i & b & Hi & Hclk & Ha)%click_each_button_sound.
    exists selector, buttons, i, b. split; [apply list_elem_of_here|done]. }
  destruct first as [[] tried]; simpl in *; [done|].
  destruct (try_close_buttons c rest) as [closed tried']. simpl in *.
  intros [Ha|Ha]%elem_of_app; [by apply Hfirst|].
  destruct (IH Ha) as (sel & buttons & i & b & Hsel & H).
  exists sel, buttons, i, b. split; [by apply list_elem_of_further|done].
Qed.

Lemma backdrop_failed_mono (tried tried' : list action) (i : nat) (o : backdrop) :
  (forall a, a ∈ tried -> a ∈ tried') ->
  backdrop_failed tried i o -> backdrop_failed tried' i o.
Proof. intros Hsub [H|(? & ? & ?)]; [by left|right; auto]. Qed.

Lemma backdrop_reached_tail (o0 : backdrop) (rest : list backdrop) (i : nat) :
  backdrop_reached (o0 :: rest) (S i) ->
  (exists displayed, backdrop_displayed o0 = Ok displayed) /\ backdrop_reached rest i.
Proof.
  intros H. split; [apply (H 0); [lia|done]|].
  intros j o Hj Ho. apply (H (S j)); [lia|done].
Qed.

Lemma click_each_backdrop_failed (overlays : list backdrop) (index : nat) :
  (click_each_backdrop index overlays).1 = false ->
  forall (i : nat) (o : backdrop),
    overlays !! i = Some o -> backdrop_reached overlays i ->
    backdrop_displayed o = Ok true ->
    backdrop_click o = Raise /\ ClickBackdrop (index + i) ∈ (click_each_backdrop index overlays).2.
Proof.
  revert index. induction overlays as [|o0 rest IH]; intros index Hres i o Hi Hreach Hd;
    [done|].
  destruct i as [|i]; simpl in Hi.
  - injection Hi as ->. rewrite Nat.add_0_r. simpl in *. rewrite Hd in *.
    destruct (backdrop_click o) eqn:Hc; [done|].
    destruct (click_each_backdrop (S index) rest) as [closed tried]. simpl in *.
    split; [done|apply list_elem_of_here].
  - apply backdrop_reached_tail in Hreach as [[d Hd0] Hreach].
    specialize (IH (S index)). replace (index + S i) with (S index + i) by lia.
    simpl in Hres |- *. rewrite Hd0 in *. destruct d; [|by apply IH].
    destruct (backdrop_click o0); [done|].
    destruct (click_each_backdrop (S index) rest) as [closed tried]. simpl in *.
    destruct (IH Hres i o Hi Hreach Hd) as [Hc Hin]. split; [done|].
    by apply list_elem_of_further.
Qed.

Lemma click_each_backdrop_closed_cons (index : nat) (o0 : backdrop) (rest : list backdrop)
    (pre tried : list action) :
  backdrop_failed (pre ++ tried) index o0 ->
  (exists (i : nat) (o : backdrop) (before : list action),
     rest !! i = Some o /\ backdrop_displayed o = Ok true /\ backdrop_click o = Ok tt /\
     tried = before ++ [ClickBackdrop (S index + i)] /\
     forall (j : nat) (o' : backdrop),
       j < i -> rest !! j = Some o' -> backdrop_failed tried (S index + j) o') ->
  exists (i : nat) (o : backdrop) (before : list action),
    (o0 :: rest) !! i = Some o /\ backdrop_displayed o = Ok true /\
    backdrop_click o = Ok tt /\
    pre ++ tried = before ++ [ClickBackdrop (index + i)] /\
    forall (j : nat) (o' : backdrop),
      j < i -> (o0 :: rest) !! j = Some o' -> backdrop_failed (pre ++ tried) (index + j) o'.
Proof.
  intros Ho0 (i & o & before & Hi & Hd & Hc & -> & Hfailed).
  exists (S i), o, (pre ++ before). split; [done|]. split; [done|]. split; [done|].
  replace (index + S i) with (S index + i) by lia. split; [by rewrite <- app_assoc|].
  intros [|j] o' Hj Ho'; simpl in Ho'.
  - injection Ho' as <-. by rewrite Nat.add_0_r.
  - replace (index + S j) with (S index + j) by lia.
    apply (backdrop_failed_mono (before ++ [ClickBackdrop (S index + i)]));
      [|apply Hfailed; [lia|done]].
    intros a Ha. apply elem_of_app. by right.
Qed.

Lemma click_each_backdrop_closed (overlays : list backdrop) (index : nat) :
  (click_each_backdrop index overlays).1 = true ->
  exists (i : nat) (o : backdrop) (before : list action),
    overlays !! i = Some o /\ backdrop_displayed o = Ok true /\ backdrop_click o = Ok tt /\
    (click_each_backdrop index overlays).2 = before ++ [ClickBackdrop (index + i)] /\
    forall (j : nat) (o' : backdrop),
      j < i -> overlays !! j = Some o' ->
      backdrop_failed (click_each_backdrop index overlays).2 (index + j) o'.
Proof.
  revert index. induction overlays as [|o0 rest IH]; intros index; simpl; [done|].
  destruct (backdrop_displayed o0) as [[]|] eqn:Hd; simpl; [| |done].
  - destruct (backdrop_click o0) as [[]|] eqn:Hc; simpl.
    { intros _. exists 0, o0, []. rewrite Nat.add_0_r. repeat split; try done.
      intros j ? Hj. lia. }
    specialize (IH (S index)).
    destruct (click_each_backdrop (S index) rest) as [closed tried]. simpl in *.
    intros Hres.
    apply (click_each_backdrop_closed_cons index o0 rest [ClickBackdrop index] tried);
      [|by apply IH].
    right. split; [done|]. split; [done|]. apply list_elem_of_here.
  - intros Hres.
    apply (click_each_backdrop_closed_cons index o0 rest [] _); [by left|by apply IH].
Qed.

Lemma click_each_backdrop_sound (overlays : list backdrop) (index : nat) (a : action) :
  a ∈ (click_each_backdrop index overlays).2 ->
  exists (i : nat) (o : backdrop),
    a = ClickBackdrop (index + i) /\ overlays !! i = Some o /\
    backdrop_displayed o = Ok true.
Proof.
  revert index. induction overlays as [|o0 rest IH]; intros index; simpl;
    [by intros ?%elem_of_nil|].
  assert (Hrest : a ∈ (click_each_backdrop (S index) rest).2 ->
            exists (i : nat) (o : backdrop),
              a = ClickBackdrop (index + i) /\ (o0 :: rest) !! i = Some o /\
              backdrop_displayed o = Ok true).
  { intros (i & o & -> & Hi & Hd)%IH. exists (S i), o.
    by replace (index + S i) with (S index + i) by lia. }
  destruct (backdrop_displayed o0) as [[]|] eqn:Hd; [|done|by intros ?%elem_of_nil].
  assert (Hhere : a = ClickBackdrop index ->
            exists (i : nat) (o : backdrop),
              a = ClickBackdrop (index + i) /\ (o0 :: rest) !! i = Some o /\
              backdrop_displayed o = Ok true).
  { intros ->. exists 0, o0. by rewrite Nat.add_0_r. }
  destruct (backdrop_click o0); [by intros ->%list_elem_of_singleton; apply Hhere|].
  destruct (click_each_backdrop (S index) rest) as [closed tried]. simpl in *.
  intros [->|Ha]%elem_of_cons; [by apply Hhere|by apply Hrest].
Qed.

(** C8: [close_popup] runs a prefix of the chain body click, screen
    positions, close buttons, escape key, backdrop click, browser back, in
    that order, and attempts nothing else; when it returns true the last
    step it ran succeeded and every step before it failed; when it returns
    false it ran all six steps and each failed; when the body click succeeds
    nothing else is attempted.  There are five screen positions and at most
    three escape keys are sent.  Each step is what the page makes of it:
    the body step clicks the body if it finds it, and succeeds if the click
    does; the screen step, given the window size, clicks at the quarter
    points and the centre, in the order top left, top right, centre, bottom
    left, bottom right, up to the first click that does not raise, and fails
    when all five raise; the button step goes through the selectors of the
    list in order and, for each, through the buttons it matches, clicking
    each shown and enabled one and then script-clicking it, up to the first
    click that does not raise, and fails only when every such button it got
    to was clicked both ways in vain; the escape step, if it finds the body,
    sends three key presses and succeeds when none raises, stopping at the
    first that does; the backdrop step clicks the shown overlays in order up
    to the first click that does not raise; the last step calls the
    browser's back. *)
Theorem C8_dismissal_chain_order :
  forall c : closer,
    (exists ran rest : list strategy,
       fallback_chain = ran ++ rest /\
       (close_popup c).2 = ran ≫= (fun st => (run_strategy c st).2) /\
       (forall a, a ∈ (close_popup c).2 -> strategy_of a ∈ ran) /\
       if (close_popup c).1
       then exists failed st,
              ran = failed ++ [st] /\
              Forall (fun st' => (run_strategy c st').1 = false) failed /\
              (run_strategy c st).1 = true
       else rest = [] /\
            Forall (fun st' => (run_strategy c st').1 = false) ran) /\
    ((try_body_click c).1 = true -> close_popup c = (true, [ClickBody])) /\
    (forall width height : Z, List.length (click_positions width height) = 5) /\
    List.length (try_escape_key c).2 <= 3 /\
    ((body_element c = Raise -> run_strategy c BodyClick = (false, [])) /\
     (body_element c = Ok tt -> body_click c = Ok tt ->
      run_strategy c BodyClick = (true, [ClickBody])) /\
     (body_element c = Ok tt -> body_click c = Raise ->
      run_strategy c BodyClick = (false, [ClickBody]))) /\
    ((window_size c = Raise -> run_strategy c ScreenPositions = (false, [])) /\
     (forall width height : Z,
        window_size c = Ok (width, height) ->
        let positions :=
          [ (width / 4, height / 4); (3 * width / 4, height / 4);
            (width / 2, height / 2);
            (width / 4, 3 * height / 4); (3 * width / 4, 3 * height / 4) ]%Z in
        if (run_strategy c ScreenPositions).1
        then exists (failed : list (Z * Z)) (xy : Z * Z) (rest : list (Z * Z)),
               positions = failed ++ xy :: rest /\
               Forall (fun xy' => pointer_click c xy' = Raise) failed /\
               pointer_click c xy = Ok tt /\
               (run_strategy c ScreenPositions).2 = position_clicks (failed ++ [xy])
        else Forall (fun xy => pointer_click c xy = Raise) positions /\
             (run_strategy c ScreenPositions).2 =
               [ ClickAt (width / 4) (height / 4);
                 ClickAt (3 * width / 4) (height / 4);
                 ClickAt (width / 2) (height / 2);
                 ClickAt (width / 4) (3 * height / 4);
                 ClickAt (3 * width / 4) (3 * height / 4) ]%Z)) /\
    ((if (run_strategy c CloseButtons).1
      then exists (earlier : list string) (selector : string) (later : list string)
                  (buttons : list button) (i : nat) (b : button),
             close_selectors = earlier ++ selector :: later /\
             Forall (selector_failed c (run_strategy c CloseButtons).2) earlier /\
             find_buttons c selector = Ok buttons /\
             button_closed (run_strategy c CloseButtons).2 selector buttons i b
      else Forall (selector_failed c (run_strategy c CloseButtons).2) close_selectors) /\
     (forall a : action,
        a ∈ (run_strategy c CloseButtons).2 ->
        exists (selector : string) (buttons : list button) (i : nat) (b : button),
          selector ∈ close_selectors /\ find_buttons c selector = Ok buttons /\
          buttons !! i = Some b /\ clickable b /\
          (a = ClickButton selector i \/
           (a = ScriptClickButton selector i /\ click b = Raise)))) /\
    ((escape_body c = Raise -> run_strategy c EscapeKey = (false, [])) /\
     (escape_body c = Ok tt ->
      send_escape c 0 = Ok tt -> send_escape c 1 = Ok tt -> send_escape c 2 = Ok tt ->
      run_strategy c EscapeKey = (true, [SendEscape 0; SendEscape 1; SendEscape 2])) /\
     (forall k : nat,
        escape_body c = Ok tt ->
        k < 3 ->
        (forall j, j < k -> send_escape c j = Ok tt) ->
        send_escape c k = Raise ->
        run_strategy c EscapeKey = (false, SendEscape <$> seq 0 (S k)))) /\
    ((find_backdrops c = Raise -> run_strategy c BackdropClick = (false, [])) /\
     (forall overlays : list backdrop,
        find_backdrops c = Ok overlays ->
        (if (run_strategy c BackdropClick).1
         then exists (i : nat) (o : backdrop) (before : list action),
                overlays !! i = Some o /\
                backdrop_displayed o = Ok true /\ backdrop_click o = Ok tt /\
                (run_strategy c BackdropClick).2 = before ++ [ClickBackdrop i] /\
                forall (j : nat) (o' : backdrop),
                  j < i -> overlays !! j = Some o' ->
                  backdrop_failed (run_strategy c BackdropClick).2 j o'
         else forall (i : nat) (o : backdrop),
                overlays !! i = Some o -> backdrop_reached overlays i ->
                backdrop_displayed o = Ok true ->
                backdrop_click o = Raise /\
                ClickBackdrop i ∈ (run_strategy c BackdropClick).2) /\
        (forall a : action,
           a ∈ (run_strategy c BackdropClick).2 ->
           exists (i : nat) (o : backdrop),
             a = ClickBackdrop i /\ overlays !! i = Some o /\
             backdrop_displayed o = Ok true))) /\
    ((browser_back c = Ok tt -> run_strategy c HistoryBack = (true, [BrowserBack])) /\
     (browser_back c = Raise -> run_strategy c HistoryBack = (false, [BrowserBack]))).
Proof.
  intros c. repeat apply conj.
  - rewrite close_popup_first_success.
    destruct (first_success_prefix c fallback_chain) as (ran & rest & Hchain & Htried & Hres).
    exists ran, rest. split; [done|]. split; [done|]. split; [|done].
    intros a. rewrite Htried. intros (st & Ha & Hst)%list_elem_of_bind.
    by rewrite (run_strategy_actions c st a Ha).
  - unfold close_popup, or_else, try_body_click.
    destruct (body_element c); simpl; [|done].
    by destruct (body_click c).
  - reflexivity.
  - unfold try_escape_key. destruct (escape_body c); [apply send_escapes_length|simpl; lia].
  - cbn [run_strategy]. unfold try_body_click. by intros ->.
  - cbn [run_strategy]. unfold try_body_click. by intros -> ->.
  - cbn [run_strategy]. unfold try_body_click. by intros -> ->.
  - cbn [run_strategy]. unfold try_screen_positions. by intros ->.
  - intros width height Hsize positions. cbn [run_strategy].
    unfold try_screen_positions. rewrite Hsize.
    apply (click_each_position_first c (click_positions width height)).
  - cbn [run_strategy].
    destruct (try_close_buttons c close_selectors).1 eqn:Hres.
    + by apply try_close_buttons_closed.
    + by apply try_close_buttons_failed.
  - cbn [run_strategy]. apply try_close_buttons_sound.
  - cbn [run_strategy]. unfold try_escape_key. by intros ->.
  - cbn [run_strategy]. unfold try_escape_key. intros -> H0 H1 H2.
    rewrite (send_escapes_all c 3 0); [done|].
    intros [|[|[|j]]] Hj; simpl; auto. lia.
  - intros k Hbody Hk Hbefore Hraise. cbn [run_strategy]. unfold try_escape_key.
    rewrite Hbody. by apply send_escapes_first_raise.
  - cbn [run_strategy]. unfold try_backdrop_click. by intros ->.
  - intros overlays Hfind. cbn [run_strategy]. unfold try_backdrop_click. rewrite Hfind.
    split; [|exact (click_each_backdrop_sound overlays 0)].
    destruct (click_each_backdrop 0 overlays).1 eqn:Hres.
    + exact (click_each_backdrop_closed overlays 0 Hres).
    + exact (click_each_backdrop_failed overlays 0 Hres).
  - cbn [run_strategy]. unfold try_browser_back. by intros ->.
  - cbn [run_strategy]. unfold try_browser_back. by intros ->.
Qed.

Lemma C8_dismissal_chain_order_witness :
  close_popup closer_body = (true, [ClickBody]) /\
  run_strategy closer_body BodyClick = (true, [ClickBody]) /\
  (Forall (fun xy => pointer_click closer_back xy = Raise)
     [(320, 180); (960, 180); (640, 360); (320, 540); (960, 540)]%Z /\
   (run_strategy closer_back ScreenPositions).2 =
     [ClickAt 320 180; ClickAt 960 180; ClickAt 640 360; ClickAt 320 540;
      ClickAt 960 540]) /\
  (exists (failed : list (Z * Z)) (xy : Z * Z) (rest : list (Z * Z)),
     [(320, 180); (960, 180); (640, 360); (320, 540); (960, 540)]%Z =
       failed ++ xy :: rest /\
     Forall (fun xy' => pointer_click closer_centre xy' = Raise) failed /\
     pointer_click closer_centre xy = Ok tt /\
     (run_strategy closer_centre ScreenPositions).2 = position_clicks (failed ++ [xy])) /\
  (exists (earlier : list string) (selector : string) (later : list string)
          (buttons : list button) (i : nat) (b : button),
     close_selectors = earlier ++ selector :: later /\
     Forall (selector_failed closer_button (run_strategy closer_button CloseButtons).2)
            earlier /\
     find_buttons closer_button selector = Ok buttons /\
     button_closed (run_strategy closer_button CloseButtons).2 selector buttons i b) /\
  Forall (selector_failed closer_back (run_strategy closer_back CloseButtons).2)
         close_selectors /\
  run_strategy closer_body EscapeKey = (true, [SendEscape 0; SendEscape 1; SendEscape 2]) /\
  run_strategy closer_escape EscapeKey = (false, [SendEscape 0; SendEscape 1]) /\
  (exists (i : nat) (o : backdrop) (before : list action),
     [Backdrop (Ok false) (Ok tt); Backdrop (Ok true) Raise; Backdrop (Ok true) (Ok tt)]
       !! i = Some o /\
     backdrop_displayed o = Ok true /\ backdrop_click o = Ok tt /\
     (run_strategy closer_backdrop BackdropClick).2 = before ++ [ClickBackdrop i] /\
     forall (j : nat) (o' : backdrop),
       j < i ->
       [Backdrop (Ok false) (Ok tt); Backdrop (Ok true) Raise; Backdrop (Ok true) (Ok tt)]
         !! j = Some o' ->
       backdrop_failed (run_strategy closer_backdrop BackdropClick).2 j o') /\
  run_strategy closer_back HistoryBack = (true, [BrowserBack]) /\
  run_strategy closer_stuck HistoryBack = (false, [BrowserBack]).
Proof.
  split; [apply (proj1 (proj2 (C8_dismissal_chain_order closer_body))); reflexivity|].
  split.
  { destruct (C8_dismissal_chain_order closer_body)
      as (_ & _ & _ & _ & (_ & Hbody & _) & _).
    apply Hbody; reflexivity. }
  split.
  { destruct (C8_dismissal_chain_order closer_back)
      as (_ & _ & _ & _ & _ & (_ & Hscreen) & _).
    exact (Hscreen 1280%Z 720%Z eq_refl). }
  split.
  { destruct (C8_dismissal_chain_order closer_centre)
      as (_ & _ & _ & _ & _ & (_ & Hscreen) & _).
    exact (Hscreen 1280%Z 720%Z eq_refl). }
  split.
  { destruct (C8_dismissal_chain_order closer_button)
      as (_ & _ & _ & _ & _ & _ & (Hbuttons & _) & _).
    exact Hbuttons. }
  split.
  { destruct (C8_dismissal_chain_order closer_back)
      as (_ & _ & _ & _ & _ & _ & (Hbuttons & _) & _).
    exact Hbuttons. }
  split.
  { destruct (C8_dismissal_chain_order closer_body)
      as (_ & _ & _ & _ & _ & _ & _ & (_ & Hescape & _) & _).
    apply Hescape; reflexivity. }
  split.
  { destruct (C8_dismissal_chain_order closer_escape)
      as (_ & _ & _ & _ & _ & _ & _ & (_ & _ & Hescape) & _).
    apply (Hescape 1); [reflexivity|lia| |reflexivity].
    intros [|j] Hj; [reflexivity|lia]. }
  split.
  { destruct (C8_dismissal_chain_order closer_backdrop)
      as (_ & _ & _ & _ & _ & _ & _ & _ & (_ & Hbackdrop) & _).
    exact (proj1 (Hbackdrop _ eq_refl)). }
  destruct (C8_dismissal_chain_order closer_back)
    as (_ & _ & _ & _ & _ & _ & _ & _ & _ & (Hback & _)).
  destruct (C8_dismissal_chain_order closer_stuck)
    as (_ & _ & _ & _ & _ & _ & _ & _ & _ & (_ & Hstuck)).
  split; [apply Hback|apply Hstuck]; reflexivity.
Defined.

(** ** The downloader: file names *)

Lemma endswith_refl (s : string) : endswith s s = true.
Proof. destruct s; cbn [endswith]; by rewrite String.eqb_refl. Qed.

Lemma append_cons (c : ascii) (a b : string) :
  String c a +:+ b = String c (a +:+ b).
Proof. reflexivity. Qed.

Lemma append_assoc (a b c : string) : a +:+ b +:+ c = (a +:+ b) +:+ c.
Proof. induction a as [|x a IH]; [done|]. by rewrite !append_cons, IH. Qed.

Lemma endswith_app (a b : string) : endswith (a +:+ b) b = true.
Proof.
  induction a as [|c a IH]; [apply endswith_refl|].
  rewrite append_cons. cbn [endswith]. rewrite IH. apply orb_true_r.
Qed.

Lemma endswith_inv (s suffix : string) :
  endswith s suffix = true -> exists a, s = a +:+ suffix.
Proof.
  induction s as [|c s IH]; cbn [endswith].
  - rewrite orb_false_r. intros <-%String.eqb_eq. by exists "".
  - intros [<-%String.eqb_eq|H]%orb_true_iff; [by exists ""|].
    destruct (IH H) as [a ->]. by exists (String c a).
Qed.

Lemma last_char_app (a b : string) :
  b <> "" -> last_char (a +:+ b) = last_char b.
Proof.
  intros Hb. induction a as [|c a IH]; [done|].
  rewrite append_cons. cbn [last_char]. rewrite IH. destruct b as [|c' b]; [done|]. simpl. by destruct (last_char b).
Qed.

Lemma endswith_last_char (s suffix : string) :
  suffix <> "" -> endswith s suffix = true -> last_char s = last_char suffix.
Proof. intros Hne [a ->]%endswith_inv. by apply last_char_app. Qed.

Lemma endswith_exclusive (s a b : string) :
  a <> "" -> b <> "" -> last_char a <> last_char b ->
  endswith s a = true -> endswith s b = false.
Proof.
  intros Ha Hb Hne Hsa. destruct (endswith s b) eqn:Hsb; [|done].
  apply endswith_last_char in Hsa, Hsb; congruence.
Qed.

Lemma path_join_endswith (a b : string) : endswith (path_join a b) b = true.
Proof.
  unfold path_join. destruct (startswith b "/"); [apply endswith_refl|].
  destruct (String.eqb a "" || endswith a "/"); [apply endswith_app|].
  rewrite append_assoc. apply endswith_app.
Qed.

(** ** The downloader: one record *)

Section DownloaderProperties.

Variable urlparse_path : string -> option string.
Variable http_get : nat -> string -> response.

Local Abbreviation get_file_extension := (get_file_extension urlparse_path).
Local Abbreviation video_filename := (video_filename urlparse_path).
Local Abbreviation download_video := (download_video http_get).
Local Abbreviation process_video := (process_video urlparse_path http_get).
Local Abbreviation process_videos := (process_videos urlparse_path http_get).
Local Abbreviation download_json_file := (download_json_file urlparse_path http_get).

Lemma video_filename_spec (url path : string) :
  urlparse_path url = Some path ->
  exists extension,
    get_file_extension url = Some extension /\
    video_filename url = Some (before_dot (basename path) +:+ extension).
Proof.
  intros H. unfold video_filename, get_file_extension. rewrite H. simpl.
  eexists. split; reflexivity.
Qed.

Lemma truthy_url (fields : gmap string json) (url : string) :
  fields !! "video_url" = Some (JStr url) -> url <> "" ->
  default (JStr "") (fields !! "video_url") = JStr url /\
  truthy (JStr url) = true.
Proof.
  intros -> Hne. split; [done|]. simpl. apply negb_true_iff. by apply String.eqb_neq.
Qed.

(** A record whose target file exists: no request, both fields set. *)
Lemma process_video_existing (videos_folder : string) (fields : gmap string json)
    (url filename : string) (s : state) :
  fields !! "video_url" = Some (JStr url) -> url <> "" ->
  video_filename url = Some filename ->
  path_exists (path_join videos_folder filename) s = true ->
  process_video videos_folder (JObj fields) s =
    (JObj (add_local_path (path_join videos_folder filename) filename fields),
     add_log (SkippingExisting filename) s).
Proof.
  intros Hurl Hne Hname Hexists. unfold process_video.
  destruct (truthy_url fields url Hurl Hne) as [-> ->]. cbn [negb].
  by rewrite Hname, Hexists.
Qed.

(** A record whose target file is missing: the outcome of the download
    decides. *)
Lemma process_video_missing (videos_folder : string) (fields : gmap string json)
    (url filename : string) (s : state) :
  fields !! "video_url" = Some (JStr url) -> url <> "" ->
  video_filename url = Some filename ->
  path_exists (path_join videos_folder filename) s = false ->
  process_video videos_folder (JObj fields) s =
    let '(ok, s') := download_video url (path_join videos_folder filename) s in
    if ok then (JObj (add_local_path (path_join videos_folder filename) filename fields),
                count_downloaded s')
    else (JObj fields, count_failed s').
Proof.
  intros Hurl Hne Hname Hexists. unfold process_video.
  destruct (truthy_url fields url Hurl Hne) as [-> ->]. cbn [negb].
  by rewrite Hname, Hexists.
Qed.


Lemma get_file_extension_kept (url path extension : string) :
  urlparse_path url = Some path ->
  get_file_extension url = Some extension ->
  (forall kept, kept ∈ [".mp4"; ".webm"; ".mov"] ->
     endswith path kept = true -> extension = kept) /\
  ((forall kept, kept ∈ [".mp4"; ".webm"; ".mov"] -> endswith path kept = false) ->
   extension = ".mp4").
Proof.
  intros Hpath. unfold get_file_extension. rewrite Hpath. simpl. intros [= <-].
  split.
  - intros kept Hkept Hends.
    assert (Hcases : kept = ".mp4" \/ kept = ".webm" \/ kept = ".mov")
      by (revert Hkept; rewrite !elem_of_cons, elem_of_nil; tauto).
    destruct Hcases as [-> | [-> | ->]].
    + by rewrite Hends.
    + by rewrite (endswith_exclusive path ".webm" ".mp4"), Hends.
    + by rewrite (endswith_exclusive path ".mov" ".mp4"),
                 (endswith_exclusive path ".mov" ".webm"), Hends.
  - intros Hnone. rewrite !Hnone; [done|set_solver..].
Qed.

Lemma download_video_ok (url save_path : string) (chunks : list string) (s : state) :
  http_get (List.length (requests s)) url = Body chunks None ->
  download_video url save_path s =
    (true,
     add_log (DownloadOk save_path)
       (set_files (<[save_path := FBytes (write_chunks chunks)]> (files s))
          (add_request url (add_log (Downloading url) s)))).
Proof. intros H. unfold download_video. cbn [add_log requests]. by rewrite H. Qed.

Lemma sample_record_url :
  sample_record !! "video_url" = Some (JStr "https://x/a.mp4").
Proof. reflexivity. Qed.

(** C6: the filename of a record with a non-empty video URL is the text of
    the last segment of the URL's path up to its first dot, followed by the
    extension [get_file_extension] gives: [.mp4], [.webm] or [.mov] when the
    path ends with it, [.mp4] otherwise.  For [https://x/a.mp4], whose path
    is [/a.mp4], the filename is [a.mp4], and after a successful fetch the
    record file holds the record with [filename] [a.mp4] and a
    [local_file_path] that ends in [a.mp4]. *)
Theorem C6_filename_from_url :
  (forall url path : string,
     urlparse_path url = Some path ->
     exists extension,
       get_file_extension url = Some extension /\
       video_filename url = Some (before_dot (basename path) +:+ extension) /\
       (forall kept, kept ∈ [".mp4"; ".webm"; ".mov"] ->
          endswith path kept = true -> extension = kept) /\
       ((forall kept, kept ∈ [".mp4"; ".webm"; ".mov"] -> endswith path kept = false) ->
        extension = ".mp4")) /\
  (urlparse_path "https://x/a.mp4" = Some "/a.mp4" ->
   video_filename "https://x/a.mp4" = Some "a.mp4" /\
   forall (json_file : string) (s : state) (chunks : list string),
     let save_path := path_join (path_join (dirname json_file) "videos") "a.mp4" in
     files s !! json_file = Some (FJson (JList [JObj sample_record])) ->
     files s !! save_path = None ->
     http_get (List.length (requests s)) "https://x/a.mp4" = Body chunks None ->
     files (download_json_file json_file s) !! json_file =
       Some (FJson (JList [JObj (<["filename" := JStr "a.mp4"]>
                                   (<["local_file_path" := JStr save_path]>
                                      sample_record))])) /\
     endswith save_path "a.mp4" = true).
Proof.
  split.
  - intros url path Hpath.
    destruct (video_filename_spec url path Hpath) as (extension & Hext & Hname).
    exists extension. split; [done|]. split; [done|].
    by apply (get_file_extension_kept url).
  - intros Hpath.
    assert (Hname : video_filename "https://x/a.mp4" = Some "a.mp4").
    { unfold video_filename, get_file_extension. rewrite Hpath. reflexivity. }
    split; [exact Hname|].
    intros json_file s chunks save_path Hfile Hmissing Hget.
    split; [|apply path_join_endswith].
    unfold download_json_file. rewrite Hfile. cbn [select_videos iterate mbind option_bind].
    cbn [process_videos].
    rewrite (process_video_missing _ sample_record "https://x/a.mp4" "a.mp4");
      [|reflexivity|discriminate|exact Hname|].
    + rewrite (download_video_ok _ _ chunks); [|exact Hget].
      cbn [set_files files updated_json_data]. by rewrite lookup_insert_eq.
    + unfold path_exists. fold save_path. rewrite Hmissing.
      apply bool_decide_eq_false. by intros [? ?].
Qed.

(** ** The downloader: the rewrite of a record file *)

Lemma add_local_path_frame (save_path filename k : string) (fields : gmap string json) :
  k <> "local_file_path" -> k <> "filename" ->
  add_local_path save_path filename fields !! k = fields !! k.
Proof. intros H1 H2. unfold add_local_path. by rewrite !lookup_insert_ne. Qed.

Lemma add_local_path_fields (save_path filename : string) (fields : gmap string json) :
  add_local_path save_path filename fields !! "local_file_path" = Some (JStr save_path) /\
  add_local_path save_path filename fields !! "filename" = Some (JStr filename).
Proof.
  unfold add_local_path. split.
  - by rewrite lookup_insert_ne, lookup_insert_eq.
  - by rewrite lookup_insert_eq.
Qed.

(** The ways one iteration of the loop over the records can end. *)
Lemma process_video_cases (videos_folder : string) (video : json) (s : state) :
  (forall t, process_video videos_folder video t = (video, t)) \/
  (forall t, process_video videos_folder video t =
             (video, count_failed (add_log ProcessingError t))) \/
  exists (fields : gmap string json) (url filename : string),
    video = JObj fields /\ fields !! "video_url" = Some (JStr url) /\ url <> "" /\
    video_filename url = Some filename /\
    let save_path := path_join videos_folder filename in
    (path_exists save_path s = true /\
     process_video videos_folder video s =
       (JObj (add_local_path save_path filename fields),
        add_log (SkippingExisting filename) s)) \/
    (path_exists save_path s = false /\
     exists s', download_video url save_path s = (true, s') /\
       process_video videos_folder video s =
         (JObj (add_local_path save_path filename fields), count_downloaded s')) \/
    (path_exists save_path s = false /\
     exists s', download_video url save_path s = (false, s') /\
       process_video videos_folder video s = (video, count_failed s')).
Proof.
  destruct video as [| | | |l|fields]; try (right; left; reflexivity).
  destruct (fields !! "video_url") as [value|] eqn:Hurl.
  - destruct (truthy value) eqn:Htruthy.
    + destruct value as [|b|n|url|l|m];
        try discriminate Htruthy;
        try (right; left; intros t; unfold process_video; rewrite Hurl;
             cbn [default from_option id]; rewrite Htruthy; reflexivity).
      destruct (video_filename url) as [filename|] eqn:Hname.
      * right; right. exists fields, url, filename.
        assert (Hne : url <> "").
        { intros ->. discriminate Htruthy. }
        split; [done|]. split; [done|]. split; [done|]. split; [done|].
        intros save_path.
        destruct (path_exists save_path s) eqn:Hexists.
        -- left. split; [done|]. by apply (process_video_existing _ fields url).
        -- right. rewrite (process_video_missing _ fields url filename) by done.
           fold save_path.
           destruct (download_video url save_path s) as [[] s'] eqn:Hdl.
           ++ left. split; [done|]. eauto.
           ++ right. split; [done|]. eauto.
      * right; left. intros t. unfold process_video. rewrite Hurl.
        cbn [default from_option id]. rewrite Htruthy. cbn [negb]. by rewrite Hname.
    + left. intros t. unfold process_video. rewrite Hurl. cbn [default from_option id].
      by rewrite Htruthy.
  - left. intros t. unfold process_video. rewrite Hurl. reflexivity.
Qed.

Lemma process_video_rewritten (videos_folder : string) (video : json) (s : state) :
  rewritten video (process_video videos_folder video s).1.
Proof.
  destruct (process_video_cases videos_folder video s)
    as [H | [H | (fields & url & filename & -> & Hurl & Hne & _ & Hcases)]];
    [rewrite H; by left..|].
  destruct Hcases as [[_ ->] | [[_ (s' & _ & ->)] | [_ (s' & _ & ->)]]];
    [right; by eexists _, _, _, _..|by left].
Qed.

Lemma download_video_total_failed (url save_path : string) (s : state) :
  total_failed (download_video url save_path s).2 = total_failed s.
Proof. unfold download_video. by destruct (http_get _ _) as [|chunks [n|]]. Qed.

(** A record for which a failure is counted is written back as it was. *)
Lemma process_video_counted_failure (videos_folder : string) (video : json) (s : state) :
  total_failed (process_video videos_folder video s).2 <> total_failed s ->
  (process_video videos_folder video s).1 = video.
Proof.
  destruct (process_video_cases videos_folder video s)
    as [H | [H | (fields & url & filename & -> & Hurl & Hne & _ & Hcases)]];
    [by rewrite H..|].
  destruct Hcases as [[_ ->] | [[_ (s' & Hdl & ->)] | [_ (s' & _ & ->)]]]; [done| |done].
  cbn [snd count_downloaded total_failed]. intros H. exfalso. apply H.
  by rewrite <- (download_video_total_failed url (path_join videos_folder filename) s), Hdl.
Qed.

(** A record that is no object, or has no true [video_url], is written back
    as it was. *)
Lemma process_video_no_url (videos_folder : string) (video : json) (s : state) :
  (forall fields, video = JObj fields ->
     truthy (default (JStr "") (fields !! "video_url")) = false) ->
  (process_video videos_folder video s).1 = video.
Proof.
  intros Hfalse.
  destruct (process_video_cases videos_folder video s)
    as [H | [H | (fields & url & filename & -> & Hurl & Hne & _ & _)]];
    [by rewrite H..|].
  specialize (Hfalse fields eq_refl).
  destruct (truthy_url fields url Hurl Hne) as [Hdefault Htrue]. congruence.
Qed.

(** A record whose download fails is written back as it was. *)
Lemma process_video_failed_download (videos_folder : string) (fields : gmap string json)
    (url filename : string) (s : state) :
  fields !! "video_url" = Some (JStr url) -> url <> "" ->
  video_filename url = Some filename ->
  path_exists (path_join videos_folder filename) s = false ->
  (download_video url (path_join videos_folder filename) s).1 = false ->
  (process_video videos_folder (JObj fields) s).1 = JObj fields.
Proof.
  intros Hurl Hne Hname Hmissing Hfailed.
  rewrite (process_video_missing _ fields url filename) by done.
  destruct (download_video _ _ s) as [ok s']. simpl in Hfailed. by subst ok.
Qed.

(** The loop writes back one record per record, in order. *)
Lemma process_videos_rewritten (videos_folder : string) (videos : list json) (s : state) :
  Forall2 (fun video video' =>
             rewritten video video' /\
             exists s', video' = (process_video videos_folder video s').1)
          videos (process_videos videos_folder videos s).1.
Proof.
  revert s. induction videos as [|video rest IH]; intros s; cbn [process_videos].
  - constructor.
  - pose proof (process_video_rewritten videos_folder video s) as Hstep.
    destruct (process_video videos_folder video s) as [video' s'] eqn:Hvideo.
    specialize (IH s').
    destruct (process_videos videos_folder rest s') as [updated s''].
    constructor; [|exact IH].
    split; [exact Hstep|]. exists s. by rewrite Hvideo.
Qed.

Lemma record_file_videos (data : json) :
  record_file data -> select_videos data ≫= iterate = Some (records data).
Proof.
  destruct data as [|b|n|t|l|m]; try done. simpl.
  by destruct (m !! "videos") as [[|b|n|t|l|m']|].
Qed.

Lemma records_updated_json_data (data : json) (updated : list json) :
  records (updated_json_data data updated) = updated.
Proof.
  destruct data as [|b|n|t|l|m]; try done. simpl. by rewrite lookup_insert_eq.
Qed.

(** C10: the downloader writes a record file back with as many records, in
    the same order, in the same outer shape (a bare list stays a bare list,
    a wrapper object keeps its other fields); every record comes back as it
    was or with the two fields [local_file_path] and [filename] set and its
    other fields as they were; and a record without video URL, one for which
    a failure is counted and one whose download fails come back as they
    were. *)
Theorem C10_rewrite_preserves_records :
  (forall (json_file : string) (s : state) (data : json),
     files s !! json_file = Some (FJson data) ->
     record_file data ->
     exists updated : list json,
       files (download_json_file json_file s) !! json_file =
         Some (FJson (updated_json_data data updated)) /\
       records (updated_json_data data updated) = updated /\
       List.length updated = List.length (records data) /\
       (forall l, data = JList l -> updated_json_data data updated = JList updated) /\
       (forall m, data = JObj m ->
          exists m', updated_json_data data updated = JObj m' /\
                     forall k, k <> "videos" -> m' !! k = m !! k) /\
       Forall2 (fun video video' =>
                  rewritten video video' /\
                  exists s', video' =
                    (process_video (path_join (dirname json_file) "videos") video s').1)
               (records data) updated) /\
  (forall (save_path filename k : string) (fields : gmap string json),
     k <> "local_file_path" -> k <> "filename" ->
     add_local_path save_path filename fields !! k = fields !! k) /\
  (forall (videos_folder : string) (video : json) (s : state),
     ((forall fields, video = JObj fields ->
         truthy (default (JStr "") (fields !! "video_url")) = false) ->
      (process_video videos_folder video s).1 = video) /\
     (total_failed (process_video videos_folder video s).2 <> total_failed s ->
      (process_video videos_folder video s).1 = video)) /\
  (forall (videos_folder : string) (fields : gmap string json) (url filename : string)
          (s : state),
     fields !! "video_url" = Some (JStr url) -> url <> "" ->
     video_filename url = Some filename ->
     path_exists (path_join videos_folder filename) s = false ->
     (download_video url (path_join videos_folder filename) s).1 = false ->
     (process_video videos_folder (JObj fields) s).1 = JObj fields).
Proof.
  split; [|split; [apply add_local_path_frame|split;
    [split; [apply process_video_no_url|apply process_video_counted_failure]
    |apply process_video_failed_download]]].
  intros json_file s data Hfile Hrecords.
  unfold download_json_file. rewrite Hfile, (record_file_videos data Hrecords).
  pose proof (process_videos_rewritten (path_join (dirname json_file) "videos")
                (records data) s) as Hall.
  destruct (process_videos _ (records data) s) as [updated s'].
  exists updated. cbn [set_files files].
  split; [by rewrite lookup_insert_eq|].
  split; [apply records_updated_json_data|].
  split; [symmetry; by eapply Forall2_length|].
  split; [by intros l ->|].
  split; [|exact Hall].
  intros m ->. eexists. split; [reflexivity|].
  intros k Hk. by rewrite lookup_insert_ne.
Qed.

(** ** The downloader: running twice *)

Lemma failed_downloads_add_log (e : event) (s : state) :
  failed_downloads (add_log e s) =
  failed_downloads s + (if is_download_failure e then 1 else 0).
Proof.
  unfold failed_downloads. cbn [add_log log].
  rewrite List.filter_app, length_app. simpl. by destruct (is_download_failure e).
Qed.

(** What a download leaves behind: its target exists when it succeeded, and
    a failure is logged when it did not. *)
Lemma download_video_effect (url save_path : string) (s : state) :
  let r := download_video url save_path s in
  (forall p, is_Some (files s !! p) -> is_Some (files r.2 !! p)) /\
  (r.1 = true -> is_Some (files r.2 !! save_path) /\
                 failed_downloads r.2 = failed_downloads s) /\
  (r.1 = false -> failed_downloads r.2 = S (failed_downloads s)).
Proof.
  unfold download_video, failed_downloads. cbn [add_log requests].
  destruct (http_get _ url) as [|chunks [n|]];
    cbn [fst snd add_log set_files add_request files log];
    rewrite !List.filter_app, !length_app; cbn [List.filter is_download_failure List.length].
  - split; [done|]. split; [done|]. intros _. lia.
  - split; [|split; [done|intros _; lia]].
    intros p Hp. rewrite lookup_insert. by case_decide.
  - split; [|split; [|done]].
    + intros p Hp. rewrite lookup_insert. by case_decide.
    + intros _. split; [by rewrite lookup_insert_eq|lia].
Qed.

Lemma failed_downloads_counters (s : state) :
  failed_downloads (count_failed s) = failed_downloads s /\
  failed_downloads (count_downloaded s) = failed_downloads s.
Proof. done. Qed.

(** One iteration keeps the files there are and never forgets a failure. *)
Lemma process_video_monotone (videos_folder : string) (video : json) (s : state) :
  let r := process_video videos_folder video s in
  (forall p, is_Some (files s !! p) -> is_Some (files r.2 !! p)) /\
  failed_downloads s <= failed_downloads r.2.
Proof.
  destruct (process_video_cases videos_folder video s)
    as [H | [H | (fields & url & filename & -> & Hurl & Hne & _ & Hcases)]];
    [by rewrite H| |].
  { rewrite H. split; [done|]. cbn [snd].
    rewrite (proj1 (failed_downloads_counters _)), failed_downloads_add_log. lia. }
  pose proof (download_video_effect url (path_join videos_folder filename) s) as Heff.
  destruct Hcases as [[_ ->] | [[_ (s' & Hdl & ->)] | [_ (s' & Hdl & ->)]]].
  - split; [done|]. cbn [snd]. rewrite failed_downloads_add_log. simpl. lia.
  - rewrite Hdl in Heff. cbn [fst snd] in *. destruct Heff as (Hfiles & Hok & _).
    split; [exact Hfiles|]. destruct (Hok eq_refl) as [_ Hcount].
    rewrite (proj2 (failed_downloads_counters s')). lia.
  - rewrite Hdl in Heff. cbn [fst snd] in *. destruct Heff as (Hfiles & _ & Hfail).
    split; [exact Hfiles|].
    rewrite (proj1 (failed_downloads_counters s')), (Hfail eq_refl). lia.
Qed.

Lemma process_videos_monotone (videos_folder : string) (videos : list json) (s : state) :
  let r := process_videos videos_folder videos s in
  (forall p, is_Some (files s !! p) -> is_Some (files r.2 !! p)) /\
  failed_downloads s <= failed_downloads r.2.
Proof.
  revert s. induction videos as [|video rest IH]; intros s; cbn [process_videos].
  - done.
  - pose proof (process_video_monotone videos_folder video s) as [Hfiles Hcount].
    destruct (process_video videos_folder video s) as [video' s'].
    specialize (IH s'). destruct (process_videos videos_folder rest s') as [updated s''].
    cbn [fst snd] in *. destruct IH as [Hfiles' Hcount'].
    split; [auto|lia].
Qed.

Lemma add_local_path_idemp (save_path filename : string) (fields : gmap string json) :
  add_local_path save_path filename (add_local_path save_path filename fields) =
  add_local_path save_path filename fields.
Proof.
  apply map_eq. intros k. unfold add_local_path.
  rewrite !lookup_insert. by repeat case_decide.
Qed.

(** A record that went through an iteration without a failed download goes
    through another one unchanged and without a request, on any disk that
    has the files the first iteration left. *)
Lemma process_video_settled (videos_folder : string) (video : json) (s t : state) :
  let r := process_video videos_folder video s in
  failed_downloads r.2 = failed_downloads s ->
  (forall p, is_Some (files r.2 !! p) -> is_Some (files t !! p)) ->
  let r' := process_video videos_folder r.1 t in
  r'.1 = r.1 /\ files r'.2 = files t /\ requests r'.2 = requests t.
Proof.
  destruct (process_video_cases videos_folder video s)
    as [H | [H | (fields & url & filename & -> & Hurl & Hne & Hname & Hcases)]];
    [cbn zeta; rewrite (H s); cbn [fst snd]; by rewrite (H t)..|].
  cbn zeta in Hcases. set (save_path := path_join videos_folder filename) in *.
  assert (Hagain : forall t,
            (forall p, is_Some (files s !! p) \/ p = save_path -> is_Some (files t !! p)) ->
            let r' := process_video videos_folder
                        (JObj (add_local_path save_path filename fields)) t in
            r'.1 = JObj (add_local_path save_path filename fields) /\
            files r'.2 = files t /\ requests r'.2 = requests t).
  { intros t' Hfiles.
    rewrite (process_video_existing _ _ url filename); try done.
    - cbn [fst snd]. by rewrite add_local_path_idemp.
    - by rewrite add_local_path_frame.
    - apply bool_decide_eq_true. apply Hfiles. by right. }
  pose proof (download_video_effect url save_path s) as Heff.
  destruct Hcases as [[Hexists ->] | [[_ (s' & Hdl & ->)] | [_ (s' & Hdl & ->)]]];
    cbn [fst snd].
  - intros _ Hfiles. apply Hagain. intros p [Hp | ->]; [by apply Hfiles|].
    apply Hfiles. by apply bool_decide_eq_true in Hexists.
  - rewrite Hdl in Heff. cbn [fst snd] in Heff. destruct Heff as (Hkeep & Hok & _).
    destruct (Hok eq_refl) as [Hsaved _].
    intros _ Hfiles. apply Hagain. intros p [Hp | ->]; apply Hfiles; cbn; auto.
  - rewrite Hdl in Heff. cbn [fst snd] in Heff. destruct Heff as (_ & _ & Hfail).
    rewrite (proj1 (failed_downloads_counters s')), (Hfail eq_refl). lia.
Qed.

Lemma process_videos_settled (videos_folder : string) (videos : list json) (s t : state) :
  let r := process_videos videos_folder videos s in
  failed_downloads r.2 = failed_downloads s ->
  (forall p, is_Some (files r.2 !! p) -> is_Some (files t !! p)) ->
  let r' := process_videos videos_folder r.1 t in
  r'.1 = r.1 /\ files r'.2 = files t /\ requests r'.2 = requests t.
Proof.
  revert s t. induction videos as [|video rest IH]; intros s t; cbn [process_videos].
  - done.
  - pose proof (process_video_monotone videos_folder video s) as [_ Hcount].
    pose proof (process_video_settled videos_folder video s t) as Hstep.
    destruct (process_video videos_folder video s) as [video' s'].
    pose proof (process_videos_monotone videos_folder rest s') as [Hfiles' Hcount'].
    specialize (IH s').
    destruct (process_videos videos_folder rest s') as [updated s''].
    cbn [fst snd process_videos] in *.
    intros Hsame Hfiles.
    destruct Hstep as (Hvideo & Ht & Hrequests); [lia|auto|].
    destruct (process_video videos_folder video' t) as [video'' t'].
    cbn [fst snd] in *. subst video''.
    destruct (IH t') as (Hupdated & Ht' & Hrequests'); [lia|by rewrite Ht|].
    destruct (process_videos videos_folder updated t') as [updated' t''].
    cbn [fst snd] in *. subst updated'.
    split; [done|]. split; congruence.
Qed.

Lemma updated_json_data_videos (data : json) (videos : json) (updated : list json) :
  select_videos data = Some videos ->
  select_videos (updated_json_data data updated) ≫= iterate = Some updated /\
  updated_json_data (updated_json_data data updated) updated =
    updated_json_data data updated.
Proof.
  destruct data as [|b|n|t|l|m]; try discriminate; intros _.
  - split; reflexivity.
  - unfold updated_json_data, select_videos.
    rewrite lookup_insert_eq, insert_insert_eq. split; reflexivity.
Qed.

Lemma download_json_file_cases (json_file : string) (s : state) :
  download_json_file json_file s = s \/
  exists (data videos : json) (records : list json),
    files s !! json_file = Some (FJson data) /\
    select_videos data = Some videos /\
    iterate videos = Some records /\
    download_json_file json_file s =
      let r := process_videos (path_join (dirname json_file) "videos") records s in
      set_files (<[json_file := FJson (updated_json_data data r.1)]> (files r.2)) r.2.
Proof.
  unfold download_json_file.
  destruct (files s !! json_file) as [[data|content]|]; [|by left..].
  destruct (select_videos data) as [videos|] eqn:Hselect; [|by left].
  cbn [mbind option_bind].
  destruct (iterate videos) as [records|] eqn:Hiterate; [|by left].
  right. exists data, videos, records. repeat (split; [done|]).
  cbn zeta. by destruct (process_videos _ records s).
Qed.

(** A run that logs no failed download leaves the disk such that the next
    run sends no request and changes no file. *)
Lemma download_json_file_rerun (json_file : string) (s : state) :
  let s1 := download_json_file json_file s in
  let s2 := download_json_file json_file s1 in
  failed_downloads s1 = failed_downloads s ->
  requests s2 = requests s1 /\ files s2 = files s1.
Proof.
  cbn zeta.
  destruct (download_json_file_cases json_file s)
    as [H | (data & videos & records & Hfile & Hselect & Hiterate & H)];
    rewrite H; [by rewrite H|].
  cbn zeta. set (videos_folder := path_join (dirname json_file) "videos").
  pose proof (process_videos_settled videos_folder records s) as Hsettled.
  destruct (process_videos videos_folder records s) as [updated s'].
  cbn [fst snd] in *.
  set (s1 := set_files _ s'). intros Hsame.
  destruct (updated_json_data_videos data videos updated Hselect) as [Hvideos Hdata].
  destruct (Hsettled s1) as (Hupdated & Hfiles & Hrequests); [exact Hsame| |].
  { intros p Hp. subst s1. cbn [set_files files]. rewrite lookup_insert.
    by case_decide. }
  unfold download_json_file. fold videos_folder.
  replace (files s1 !! json_file) with (Some (FJson (updated_json_data data updated)))
    by (subst s1; cbn [set_files files]; by rewrite lookup_insert_eq).
  rewrite Hvideos.
  destruct (process_videos videos_folder updated s1) as [updated' s2].
  cbn [fst snd] in *. subst updated'. cbn [set_files files requests].
  split; [done|]. rewrite Hdata, Hfiles. subst s1. cbn [set_files files].
  by rewrite insert_insert_eq.
Qed.


(** ** Further properties of the downloader *)

Local Abbreviation download_category_videos :=
  (download_category_videos urlparse_path http_get).

Lemma append_empty_r (s : string) : s +:+ "" = s.
Proof. induction s as [|c s IH]; [done|]. by rewrite append_cons, IH. Qed.

Lemma prefix_append (a b : string) : String.prefix a (a +:+ b) = true.
Proof.
  induction a as [|c a IH]; [by destruct b|].
  rewrite append_cons. cbn [String.prefix]. by destruct (ascii_dec c c).
Qed.

Lemma write_chunks_from (chunks : list string) (content : string) :
  fold_left (fun content chunk =>
               if String.eqb chunk "" then content else content +:+ chunk)
            chunks content =
  content +:+ body_bytes chunks.
Proof.
  revert content. induction chunks as [|chunk rest IH]; intros content; simpl.
  - by rewrite append_empty_r.
  - rewrite IH. destruct (String.eqb_spec chunk "") as [->|_]; [done|].
    by rewrite append_assoc.
Qed.

Lemma write_chunks_eq (chunks : list string) : write_chunks chunks = body_bytes chunks.
Proof. unfold write_chunks. by rewrite write_chunks_from. Qed.

Lemma body_bytes_app (a b : list string) :
  body_bytes (a ++ b) = body_bytes a +:+ body_bytes b.
Proof. induction a as [|x a IH]; [done|]. simpl. by rewrite IH, append_assoc. Qed.

Lemma body_bytes_take (chunks : list string) (n : nat) :
  String.prefix (body_bytes (take n chunks)) (body_bytes chunks) = true.
Proof.
  rewrite <- (take_drop n chunks) at 2. rewrite body_bytes_app. apply prefix_append.
Qed.

(** X1: what a download writes is the concatenation of the chunks it
    received: leaving out the empty chunks loses nothing, and the content
    after [n] chunks is a prefix of the whole body. *)
Theorem X1_write_chunks_body (chunks : list string) (n : nat) :
  write_chunks chunks = body_bytes chunks /\
  String.prefix (write_chunks (take n chunks)) (write_chunks chunks) = true.
Proof.
  split; [apply write_chunks_eq|]. rewrite !write_chunks_eq. apply body_bytes_take.
Qed.

(** X2: a download sends exactly one request, leaves the counters and every
    path but its target as they were, and returns true exactly when the body
    arrived whole.  The target then holds the whole body; after a stream that
    broke it holds a prefix of the body; after a request error the disk is as
    it was. *)
Theorem X2_download_video_effect (url save_path : string) (s : state) :
  let r := download_video url save_path s in
  let answer := http_get (List.length (requests s)) url in
  requests r.2 = requests s ++ [url] /\
  total_downloaded r.2 = total_downloaded s /\
  total_failed r.2 = total_failed s /\
  (forall p, p <> save_path -> files r.2 !! p = files s !! p) /\
  (r.1 = true <-> exists chunks, answer = Body chunks None) /\
  (forall chunks, answer = Body chunks None ->
     files r.2 !! save_path = Some (FBytes (body_bytes chunks))) /\
  (forall chunks n, answer = Body chunks (Some n) ->
     exists content,
       files r.2 !! save_path = Some (FBytes content) /\
       String.prefix content (body_bytes chunks) = true) /\
  (answer = RequestError -> files r.2 = files s).
Proof.
  cbn zeta. unfold download_video. cbn [add_log requests].
  destruct (http_get _ url) as [|chunks [n|]];
    cbn [fst snd add_log set_files add_request files requests total_downloaded
         total_failed].
  - repeat split; try done. intros [chunks H]. discriminate H.
  - repeat split; try done.
    + intros p Hp. by rewrite lookup_insert_ne.
    + intros [chunks' H]. discriminate H.
    + intros chunks' n' [= <- <-]. eexists. split; [apply lookup_insert_eq|].
      rewrite write_chunks_eq. apply body_bytes_take.
  - repeat split; try done.
    + intros p Hp. by rewrite lookup_insert_ne.
    + intros _. by exists chunks.
    + intros chunks' [= <-]. rewrite lookup_insert_eq.
      by rewrite write_chunks_eq.
Qed.

Lemma kept_or_downloaded_trans (s1 s2 s3 : state) (p : string) :
  kept_or_downloaded s1 s2 p -> kept_or_downloaded s2 s3 p ->
  kept_or_downloaded s1 s3 p.
Proof.
  unfold kept_or_downloaded.
  intros [H12 | [Hfree (c & Hc)]] [H23 | [Hfree' (c' & Hc')]].
  - left. congruence.
  - right. split; [congruence|eauto].
  - right. split; [done|]. exists c. congruence.
  - congruence.
Qed.

Lemma download_video_files (url save_path : string) (s : state) (p : string) :
  files s !! save_path = None ->
  kept_or_downloaded s (download_video url save_path s).2 p.
Proof.
  intros Hfree. unfold download_video, kept_or_downloaded. cbn [add_log requests].
  destruct (http_get _ url) as [|chunks [n|]];
    cbn [snd add_log set_files add_request files]; [by left| |];
    (destruct (decide (p = save_path)) as [->|Hne];
       [right; split; [done|]; rewrite lookup_insert_eq; eauto
       |left; by rewrite lookup_insert_ne]).
Qed.

Lemma path_exists_false (p : string) (s : state) :
  path_exists p s = false -> files s !! p = None.
Proof.
  unfold path_exists. intros H%bool_decide_eq_false.
  destruct (files s !! p); [|done]. exfalso. apply H. eauto.
Qed.

Lemma process_video_files (videos_folder : string) (video : json) (s : state)
    (p : string) :
  kept_or_downloaded s (process_video videos_folder video s).2 p.
Proof.
  destruct (process_video_cases videos_folder video s)
    as [H | [H | (fields & url & filename & -> & Hurl & Hne & _ & Hcases)]];
    [rewrite H; by left..|].
  cbn zeta in Hcases.
  destruct Hcases as [[_ ->] | [[Hfree (s' & Hdl & ->)] | [Hfree (s' & Hdl & ->)]]];
    [by left| |];
    apply path_exists_false in Hfree;
    pose proof (download_video_files url _ s p Hfree) as Hfiles;
    by rewrite Hdl in Hfiles.
Qed.

Lemma process_videos_files (videos_folder : string) (videos : list json) (s : state)
    (p : string) :
  kept_or_downloaded s (process_videos videos_folder videos s).2 p.
Proof.
  revert s. induction videos as [|video rest IH]; intros s; cbn [process_videos].
  - by left.
  - pose proof (process_video_files videos_folder video s p) as Hstep.
    destruct (process_video videos_folder video s) as [video' s'].
    specialize (IH s'). destruct (process_videos videos_folder rest s') as [updated s''].
    cbn [snd] in *. by eapply kept_or_downloaded_trans.
Qed.

Lemma download_json_file_files (json_file : string) (s : state) (p : string) :
  p <> json_file -> kept_or_downloaded s (download_json_file json_file s) p.
Proof.
  intros Hne.
  destruct (download_json_file_cases json_file s)
    as [H | (data & videos & records & _ & _ & _ & H)]; rewrite H; [by left|].
  cbn zeta.
  pose proof (process_videos_files (path_join (dirname json_file) "videos") records s p)
    as Hfiles.
  destruct (process_videos _ records s) as [updated s']. cbn [fst snd] in *.
  unfold kept_or_downloaded in *. cbn [set_files files].
  by rewrite lookup_insert_ne.
Qed.

Lemma download_files_files (video_files : list string) (s : state) (p : string) :
  p ∉ video_files ->
  kept_or_downloaded s
    (fold_left (fun s json_file => download_json_file json_file s) video_files s) p.
Proof.
  revert s. induction video_files as [|json_file rest IH]; intros s Hp; simpl.
  - by left.
  - apply not_elem_of_cons in Hp as [Hne Hrest].
    eapply kept_or_downloaded_trans; [by apply download_json_file_files|].
    by apply IH.
Qed.

(** X3: the downloader never overwrites or removes a file other than the
    record files it is given: every other path that held a file holds the
    same file after the run, and a path that was free is free or holds
    downloaded bytes. *)
Theorem X3_no_file_overwritten (video_files : list string) (s : state) (p : string) :
  p ∉ video_files ->
  (forall f, files s !! p = Some f ->
     files (download_category_videos video_files s) !! p = Some f) /\
  (files s !! p = None ->
     files (download_category_videos video_files s) !! p = None \/
     exists content,
       files (download_category_videos video_files s) !! p = Some (FBytes content)).
Proof.
  intros Hp. unfold download_category_videos.
  pose proof (download_files_files video_files (reset_counters s) p Hp) as H.
  unfold kept_or_downloaded in H. cbn [reset_counters files] in H.
  split.
  - intros f Hf. destruct H as [-> | [Hfree _]]; congruence.
  - intros Hfree. destruct H as [-> | [_ Hnew]]; auto.
Qed.

Lemma logged_add_log (kind : event -> bool) (e : event) (s : state) :
  logged kind (add_log e s) = logged kind s + (if kind e then 1 else 0).
Proof.
  unfold logged. cbn [add_log log]. rewrite List.filter_app, length_app.
  simpl. by destruct (kind e).
Qed.

Lemma accounted_refl (s : state) : accounted s s.
Proof. unfold accounted. lia. Qed.

Lemma accounted_trans (s1 s2 s3 : state) :
  accounted s1 s2 -> accounted s2 s3 -> accounted s1 s3.
Proof. unfold accounted. lia. Qed.

Lemma download_video_accounted (url save_path : string) (s : state) :
  let r := download_video url save_path s in
  accounted s (if r.1 then count_downloaded r.2 else count_failed r.2).
Proof.
  cbn zeta. unfold download_video. cbn [add_log requests].
  destruct (http_get _ url) as [|chunks [n|]]; cbn [fst snd]; unfold accounted, logged;
    cbn [add_log set_files add_request count_failed count_downloaded log requests
         total_downloaded total_failed];
    rewrite !List.filter_app, !length_app; simpl; lia.
Qed.

Lemma process_video_accounted (videos_folder : string) (video : json) (s : state) :
  accounted s (process_video videos_folder video s).2.
Proof.
  destruct (process_video_cases videos_folder video s)
    as [H | [H | (fields & url & filename & -> & Hurl & Hne & _ & Hcases)]];
    rewrite ?H; [apply accounted_refl| |].
  - unfold accounted, logged.
    cbn [snd add_log count_failed log requests total_downloaded total_failed].
    rewrite !List.filter_app, !length_app. simpl. lia.
  - cbn zeta in Hcases.
    pose proof (download_video_accounted url (path_join videos_folder filename) s) as Hdl.
    destruct Hcases as [[_ ->] | [[_ (s' & Hs' & ->)] | [_ (s' & Hs' & ->)]]].
    + unfold accounted, logged.
      cbn [snd add_log log requests total_downloaded total_failed].
      rewrite !List.filter_app, !length_app. simpl. lia.
    + by rewrite Hs' in Hdl.
    + by rewrite Hs' in Hdl.
Qed.

Lemma process_videos_accounted (videos_folder : string) (videos : list json) (s : state) :
  accounted s (process_videos videos_folder videos s).2.
Proof.
  revert s. induction videos as [|video rest IH]; intros s; cbn [process_videos].
  - apply accounted_refl.
  - pose proof (process_video_accounted videos_folder video s) as Hstep.
    destruct (process_video videos_folder video s) as [video' s'].
    specialize (IH s'). destruct (process_videos videos_folder rest s') as [updated s''].
    cbn [snd] in *. by eapply accounted_trans.
Qed.

Lemma download_json_file_accounted (json_file : string) (s : state) :
  accounted s (download_json_file json_file s).
Proof.
  destruct (download_json_file_cases json_file s)
    as [H | (data & videos & records & _ & _ & _ & H)]; rewrite H;
    [apply accounted_refl|].
  cbn zeta.
  pose proof (process_videos_accounted (path_join (dirname json_file) "videos") records s)
    as Hloop.
  by destruct (process_videos _ records s) as [updated s'].
Qed.

Lemma download_files_accounted (video_files : list string) (s : state) :
  accounted s
    (fold_left (fun s json_file => download_json_file json_file s) video_files s).
Proof.
  revert s. induction video_files as [|json_file rest IH]; intros s; simpl.
  - apply accounted_refl.
  - eapply accounted_trans; [apply download_json_file_accounted|apply IH].
Qed.

(** X4: the summary counts of a category run agree with its log.  With
    [s'] the state after the run: [total_downloaded] is the number of
    successes logged during the run, [total_failed] the number of failed
    downloads and processing errors logged during it, and the requests sent
    during it are as many as its downloads that succeeded or failed. *)
Theorem X4_counters_agree_with_log (video_files : list string) (s : state) :
  let s' := download_category_videos video_files s in
  total_downloaded s' + logged is_download_ok s = logged is_download_ok s' /\
  total_failed s' + logged is_download_failure s + logged is_processing_error s =
    logged is_download_failure s' + logged is_processing_error s' /\
  List.length (requests s') + logged is_download_ok s + logged is_download_failure s =
    List.length (requests s) + logged is_download_ok s' + logged is_download_failure s'.
Proof.
  cbn zeta. unfold download_category_videos.
  destruct (download_files_accounted video_files (reset_counters s))
    as (Hok & Hfailed & Hrequests & Hended).
  assert (Hlog : forall kind, logged kind (reset_counters s) = logged kind s) by done.
  rewrite !Hlog in *.
  cbn [reset_counters requests total_downloaded total_failed] in *. lia.
Qed.

Lemma download_json_file_unreadable (json_file : string) (s : state) :
  unreadable s json_file -> download_json_file json_file s = s.
Proof.
  unfold unreadable, download_json_file.
  destruct (files s !! json_file) as [[data|content]|]; [|done..].
  by intros ->.
Qed.

Lemma unreadable_preserved (json_file other : string) (s : state) :
  unreadable s json_file -> unreadable (download_json_file other s) json_file.
Proof.
  intros H. destruct (decide (json_file = other)) as [<-|Hne].
  - by rewrite download_json_file_unreadable.
  - destruct (download_json_file_files other s json_file Hne) as [Hsame | [_ (c & Hc)]];
      unfold unreadable in *; [by rewrite Hsame|by rewrite Hc].
Qed.

Lemma unreadable_fold (json_file : string) (video_files : list string) (s : state) :
  unreadable s json_file ->
  unreadable (fold_left (fun s f => download_json_file f s) video_files s) json_file.
Proof.
  revert s. induction video_files as [|f rest IH]; intros s H; simpl; [done|].
  by apply IH, unreadable_preserved.
Qed.

(** X5: a record file that is missing, is no JSON document or holds no
    records to loop over is skipped without any effect, and the files before
    and after it are processed as without it. *)
Theorem X5_unreadable_file_skipped (before after : list string) (json_file : string)
    (s : state) :
  unreadable s json_file ->
  download_json_file json_file s = s /\
  download_category_videos (before ++ json_file :: after) s =
    download_category_videos (before ++ after) s.
Proof.
  intros H. split; [by apply download_json_file_unreadable|].
  unfold download_category_videos. rewrite !fold_left_app. simpl.
  rewrite download_json_file_unreadable; [done|].
  by apply unreadable_fold.
Qed.

Lemma contains_app (c : ascii) (a b : string) :
  contains c (a +:+ b) = contains c a || contains c b.
Proof.
  induction a as [|x a IH]; [done|].
  rewrite append_cons. cbn [contains]. by rewrite IH, orb_assoc.
Qed.

Lemma contains_before_dot (c : ascii) (s : string) :
  contains c s = false -> contains c (before_dot s) = false.
Proof.
  induction s as [|x s IH]; [done|]. cbn [contains before_dot].
  intros [Hx Hs]%orb_false_iff. destruct (Ascii.eqb x "."); [done|].
  cbn [contains]. by rewrite Hx, IH.
Qed.

Lemma split_last_sep_tail (p : string) :
  contains "/" (split_last_sep p).2 = false.
Proof.
  induction p as [|c p IH]; [done|]. cbn [split_last_sep].
  destruct (split_last_sep p) as [head tail]. cbn [snd] in *.
  destruct head; [|done]. unfold is_sep. destruct (Ascii.eqb c "/") eqn:Hc; [done|].
  cbn [snd contains]. by rewrite Hc, IH.
Qed.

(** A name without separator is the basename of whatever it is appended
    to. *)
Lemma split_last_sep_app (a b : string) :
  contains "/" b = false ->
  split_last_sep (a +:+ b) = ((split_last_sep a).1, (split_last_sep a).2 +:+ b).
Proof.
  intros Hb. induction a as [|c a IH].
  - cbn [split_last_sep fst snd]. change ("" +:+ b) with b.
    induction b as [|x b IHb]; [done|]. cbn [contains] in Hb.
    apply orb_false_iff in Hb as [Hx Hb]. cbn [split_last_sep].
    rewrite (IHb Hb). unfold is_sep. by rewrite Hx.
  - rewrite append_cons. cbn [split_last_sep]. rewrite IH.
    destruct (split_last_sep a) as [head tail]. cbn [fst snd].
    destruct head; [|done]. by destruct (is_sep c).
Qed.

Lemma split_last_sep_slash (a : string) :
  endswith a "/" = true -> (split_last_sep a).2 = "".
Proof.
  intros [pre ->]%endswith_inv.
  assert (H : (split_last_sep (pre +:+ "/")).1 <> "" /\
              (split_last_sep (pre +:+ "/")).2 = "").
  { induction pre as [|c pre [IH1 IH2]]; [done|].
    rewrite append_cons. cbn [split_last_sep].
    destruct (split_last_sep (pre +:+ "/")) as [head tail]. cbn [fst snd] in *.
    by destruct head. }
  apply H.
Qed.

Lemma basename_path_join (videos_folder filename : string) :
  contains "/" filename = false ->
  basename (path_join videos_folder filename) = filename.
Proof.
  intros Hname. unfold path_join, basename.
  assert (Hstart : startswith filename "/" = false).
  { destruct filename as [|c filename]; [done|]. cbn [contains] in Hname.
    apply orb_false_iff in Hname as [Hc _]. unfold startswith. cbn [String.prefix].
    destruct (ascii_dec "/" c) as [<-|]; done. }
  rewrite Hstart.
  destruct (String.eqb_spec videos_folder "") as [->|Hne]; cbn [orb].
  - by rewrite split_last_sep_app.
  - destruct (endswith videos_folder "/") eqn:Hends.
    + rewrite split_last_sep_app by done. cbn [snd].
      by rewrite split_last_sep_slash.
    + rewrite append_assoc, split_last_sep_app by done. cbn [snd].
      rewrite split_last_sep_slash; [done|apply endswith_app].
Qed.

Lemma video_filename_parts (url filename : string) :
  video_filename url = Some filename ->
  exists stem extension,
    filename = stem +:+ extension /\
    contains "/" stem = false /\ contains "." stem = false /\
    (extension = ".mp4" \/ extension = ".webm" \/ extension = ".mov").
Proof.
  unfold video_filename, get_file_extension.
  destruct (urlparse_path url) as [path|]; [|done]. simpl. intros [= <-].
  eexists _, _. split; [reflexivity|]. split; [|split].
  - apply contains_before_dot, split_last_sep_tail.
  - generalize (basename path). intros s. induction s as [|c s IH]; [done|].
    cbn [before_dot]. destruct (Ascii.eqb c ".") eqn:Hc; [done|].
    cbn [contains]. by rewrite Hc, IH.
  - destruct (endswith path ".mp4"); [auto|].
    destruct (endswith path ".webm"); [auto|].
    destruct (endswith path ".mov"); auto.
Qed.

(** X6: the filename derived from a URL has no path separator, its only
    dots are those of its extension, which is one of the three video
    extensions, and it never ends in [.json]; so the target path of a record
    is a file directly in the videos folder, named by the filename. *)
Theorem X6_filename_stays_in_folder (url filename : string) :
  video_filename url = Some filename ->
  contains "/" filename = false /\
  (exists stem extension,
     filename = stem +:+ extension /\ contains "." stem = false /\
     extension ∈ [".mp4"; ".webm"; ".mov"]) /\
  endswith filename ".json" = false /\
  forall videos_folder, basename (path_join videos_folder filename) = filename.
Proof.
  intros (stem & extension & -> & Hsep & Hdot & Hext)%video_filename_parts.
  assert (Hname : contains "/" (stem +:+ extension) = false).
  { rewrite contains_app, Hsep. by destruct Hext as [-> | [-> | ->]]. }
  split; [exact Hname|]. split; [|split].
  - exists stem, extension. split; [done|]. split; [done|].
    destruct Hext as [-> | [-> | ->]]; set_solver.
  - destruct Hext as [-> | [-> | ->]];
      (eapply endswith_exclusive; [| | |apply endswith_app]; done).
  - intros videos_folder. by apply basename_path_join.
Qed.

(** X7: two records whose URLs give the same filename share one file.  When
    the target is free and the download for the first record succeeds, the
    second record's URL is never requested and both records come back with
    the same [local_file_path]. *)
Theorem X7_same_filename_one_download (videos_folder : string)
    (fields1 fields2 : gmap string json) (url1 url2 filename : string)
    (chunks : list string) (s : state) :
  fields1 !! "video_url" = Some (JStr url1) -> url1 <> "" ->
  fields2 !! "video_url" = Some (JStr url2) -> url2 <> "" ->
  video_filename url1 = Some filename ->
  video_filename url2 = Some filename ->
  path_exists (path_join videos_folder filename) s = false ->
  http_get (List.length (requests s)) url1 = Body chunks None ->
  let save_path := path_join videos_folder filename in
  let r := process_videos videos_folder [JObj fields1; JObj fields2] s in
  r.1 = [JObj (add_local_path save_path filename fields1);
         JObj (add_local_path save_path filename fields2)] /\
  requests r.2 = requests s ++ [url1] /\
  files r.2 !! save_path = Some (FBytes (body_bytes chunks)) /\
  total_downloaded r.2 = S (total_downloaded s) /\
  total_failed r.2 = total_failed s.
Proof.
  intros Hurl1 Hne1 Hurl2 Hne2 Hname1 Hname2 Hfree Hget. cbn zeta.
  cbn [process_videos].
  rewrite (process_video_missing _ fields1 url1 filename) by done.
  rewrite (download_video_ok _ _ chunks) by done.
  rewrite (process_video_existing _ fields2 url2 filename); try done.
  - cbn [fst snd add_log set_files add_request count_downloaded files requests
         total_downloaded total_failed].
    repeat split; try done. by rewrite lookup_insert_eq, write_chunks_eq.
  - unfold path_exists. cbn [add_log set_files add_request count_downloaded files].
    apply bool_decide_eq_true. rewrite lookup_insert_eq. eauto.
Qed.

Lemma find_video_files_elem (walk : list (string * list string)) (p : string) :
  p ∈ find_video_files walk <->
  exists root names name,
    (root, names) ∈ walk /\ name ∈ names /\
    endswith name ".json" = true /\ name <> "metadata.json" /\
    p = path_join root name.
Proof.
  unfold find_video_files. rewrite list_elem_of_bind. split.
  - intros ([root names] & Hp & Hwalk). apply list_elem_of_bind in Hp as (name & Hp & Hname).
    destruct (endswith name ".json") eqn:Hjson; [|by apply elem_of_nil in Hp].
    destruct (String.eqb_spec name "metadata.json") as [->|Hmeta];
      [by apply elem_of_nil in Hp|].
    apply list_elem_of_singleton in Hp. by exists root, names, name.
  - intros (root & names & name & Hwalk & Hname & Hjson & Hmeta & ->).
    exists (root, names). split; [|done]. apply list_elem_of_bind. exists name.
    split; [|done]. rewrite Hjson. apply String.eqb_neq in Hmeta. rewrite Hmeta.
    by apply list_elem_of_singleton.
Qed.

Lemma endswith_path_join (a b suffix : string) :
  endswith b suffix = true -> endswith (path_join a b) suffix = true.
Proof.
  intros [pre ->]%endswith_inv.
  destruct (endswith_inv _ _ (path_join_endswith a (pre +:+ suffix))) as [pre' ->].
  rewrite append_assoc. apply endswith_app.
Qed.

(** X8: every record file [find_video_files] returns ends in [.json] and is
    named by a file other than [metadata.json]; when the names of the walk
    are plain file names its basename is not [metadata.json]; and it is
    never the target path of a download. *)
Theorem X8_find_video_files (walk : list (string * list string)) (p : string) :
  p ∈ find_video_files walk ->
  endswith p ".json" = true /\
  ((forall root names name, (root, names) ∈ walk -> name ∈ names ->
      contains "/" name = false) ->
   basename p <> "metadata.json") /\
  forall videos_folder url filename,
    video_filename url = Some filename ->
    p <> path_join videos_folder filename.
Proof.
  intros (root & names & name & Hwalk & Hname & Hjson & Hmeta & ->)%find_video_files_elem.
  split; [by apply endswith_path_join|]. split.
  - intros Hplain. rewrite basename_path_join; [done|]. by eapply Hplain.
  - intros videos_folder url filename Hfile Heq.
    apply video_filename_parts in Hfile as (stem & extension & -> & _ & _ & Hext).
    assert (Hends : endswith (path_join videos_folder (stem +:+ extension)) extension = true).
    { apply endswith_path_join, endswith_app. }
    rewrite <- Heq in Hends.
    assert (Hjson' : endswith (path_join root name) ".json" = true)
      by by apply endswith_path_join.
    destruct Hext as [-> | [-> | ->]];
      rewrite (endswith_exclusive (path_join root name) ".json") in Hends; done.
Qed.

Lemma records_saved_json (items : list item) :
  records (saved_json items) = (fun it => JObj (item_record it)) <$> items.
Proof. reflexivity. Qed.

(** X9: [load_videos_from_json] finds no videos in the record file the
    scraper writes for a sequence of items, a bare list, although the loop
    of [download_category_videos] finds one record per item in it; on a
    wrapper object both take the [videos] field. *)
Theorem X9_load_videos_from_json (json_file : string) (s : state) :
  (forall items : list item,
     files s !! json_file = Some (FJson (saved_json items)) ->
     load_videos_from_json json_file s = JList [] /\
     select_videos (saved_json items) ≫= iterate = Some (records (saved_json items)) /\
     List.length (records (saved_json items)) = List.length items) /\
  (forall m : gmap string json,
     files s !! json_file = Some (FJson (JObj m)) ->
     select_videos (JObj m) = Some (load_videos_from_json json_file s)) /\
  (files s !! json_file = None -> load_videos_from_json json_file s = JList []).
Proof.
  unfold load_videos_from_json. split; [|split].
  - intros items ->. split; [done|]. split; [done|].
    by rewrite records_saved_json, length_fmap.
  - by intros m ->.
  - by intros ->.
Qed.

Lemma item_record_url (it : item) :
  item_record it !! "video_url" = Some (json_of_field (video_url it)).
Proof. apply item_record_fields. Qed.

(** X10: what the scraper saves is a record file for the downloader, with
    one record per item in order.  The record of an item without video URL
    (null or empty) goes through the download loop unchanged, without a
    request and without a failure being counted; the record of an item with
    a URL is looked up on the disk or fetched under the filename of that
    URL. *)
Theorem X10_saved_items_downloadable (items : list item) :
  record_file (saved_json items) /\
  records (saved_json items) = (fun it => JObj (item_record it)) <$> items /\
  (forall (it : item) (videos_folder : string) (s : state),
     nonempty (video_url it) = false ->
     process_video videos_folder (JObj (item_record it)) s = (JObj (item_record it), s)) /\
  (forall (it : item) (url filename videos_folder : string) (s : state),
     video_url it = Some url -> url <> "" ->
     video_filename url = Some filename ->
     path_exists (path_join videos_folder filename) s = true ->
     process_video videos_folder (JObj (item_record it)) s =
       (JObj (add_local_path (path_join videos_folder filename) filename (item_record it)),
        add_log (SkippingExisting filename) s)).
Proof.
  split; [done|]. split; [done|]. split.
  - intros it videos_folder s Hempty. unfold process_video.
    rewrite item_record_url. cbn [default from_option id].
    destruct (video_url it) as [url|]; [|done]. simpl in Hempty. simpl truthy.
    by rewrite Hempty.
  - intros it url filename videos_folder s Hurl Hne Hname Hexists.
    apply (process_video_existing _ _ url); try done.
    by rewrite item_record_url, Hurl.
Qed.

End DownloaderProperties.

(** ** The downloader on sample disks *)

Example video_filename_example :
  video_filename plain_url_path "https://x/dir/b.c.webm" = Some "b.webm" /\
  video_filename plain_url_path "https://x/a.bin" = Some "a.mp4" /\
  video_filename plain_url_path "https://x/a.mov" = Some "a.mov".
Proof. repeat split; reflexivity. Qed.

Example download_sample_example :
  let s := download_json_file plain_url_path good_server "cat/sub/videos.json"
             sample_disk in
  files s !! "cat/sub/videos/a.mp4" = Some (FBytes "abcdefgh") /\
  requests s = ["https://x/a.mp4"] /\
  total_downloaded s = 1 /\ total_failed s = 0.
Proof. repeat split; vm_compute; reflexivity. Qed.

Lemma C6_filename_from_url_witness :
  video_filename plain_url_path "https://x/a.mp4" = Some "a.mp4" /\
  files (download_json_file plain_url_path good_server "cat/sub/videos.json" sample_disk)
    !! "cat/sub/videos.json" =
    Some (FJson (JList [JObj (<["filename" := JStr "a.mp4"]>
                                (<["local_file_path" := JStr "cat/sub/videos/a.mp4"]>
                                   sample_record))])) /\
  get_file_extension plain_url_path "https://x/clip.bin" = Some ".mp4".
Proof.
  destruct (C6_filename_from_url plain_url_path good_server) as [Hgeneral Hsample].
  destruct (Hsample eq_refl) as [Hname Hfile].
  split; [exact Hname|]. split.
  - apply (Hfile "cat/sub/videos.json" sample_disk ["abcd"; "efgh"]); reflexivity.
  - destruct (Hgeneral "https://x/clip.bin" "/clip.bin" eq_refl)
      as (extension & Hext & _ & _ & Hdefault).
    rewrite Hext. f_equal. apply Hdefault.
    intros kept Hkept.
    apply elem_of_cons in Hkept as [-> | Hkept]; [reflexivity|].
    apply elem_of_cons in Hkept as [-> | Hkept]; [reflexivity|].
    apply elem_of_cons in Hkept as [-> | Hkept]; [reflexivity|].
    by apply elem_of_nil in Hkept.
Defined.



Lemma C10_rewrite_preserves_records_witness :
  exists updated : list json,
    files (download_json_file plain_url_path breaking_server "cat/sub/videos.json"
             sample_disk) !! "cat/sub/videos.json" =
      Some (FJson (JList updated)) /\
    List.length updated = 1.
Proof.
  destruct (proj1 (C10_rewrite_preserves_records plain_url_path breaking_server)
              "cat/sub/videos.json" sample_disk (JList [JObj sample_record]) eq_refl I)
    as (updated & Hfile & _ & Hlength & _).
  exists updated. split; [exact Hfile|exact Hlength].
Defined.

(** C9: on the sample disk, with a server whose stream breaks after the
    first of two chunks, the download returns false and is counted as
    failed, the record is written back without local path, and the target
    file is on the disk with the first chunk only; the next run sends no
    request, logs the file as existing and writes the record back with
    [local_file_path] and [filename] set. *)
Theorem C9_partial_file_taken_as_downloaded :
  exists (http_get : nat -> string -> response) (json_file save_path : string)
         (s : state),
    let s1 := download_json_file plain_url_path http_get json_file s in
    let s2 := download_json_file plain_url_path http_get json_file s1 in
    files s !! json_file = Some (FJson (JList [JObj sample_record])) /\
    files s !! save_path = None /\
    (download_video http_get "https://x/a.mp4" save_path s).1 = false /\
    http_get 0 "https://x/a.mp4" = Body ["abcd"; "efgh"] (Some 1) /\
    files s1 !! save_path = Some (FBytes "abcd") /\
    write_chunks ["abcd"; "efgh"] = "abcdefgh" /\
    files s1 !! json_file = Some (FJson (JList [JObj sample_record])) /\
    total_failed s1 = 1 /\
    requests s1 = ["https://x/a.mp4"] /\
    requests s2 = requests s1 /\
    files s2 !! save_path = Some (FBytes "abcd") /\
    log s2 = log s1 ++ [SkippingExisting "a.mp4"] /\
    files s2 !! json_file =
      Some (FJson (JList [JObj (add_local_path save_path "a.mp4" sample_record)])).
Proof.
  exists breaking_server, "cat/sub/videos.json", "cat/sub/videos/a.mp4", sample_disk.
  cbn zeta. repeat split; vm_compute; reflexivity.
Qed.

(** ** Further properties of the helpers and of the scraper *)

Lemma all_chars_lstrip (test : ascii -> bool) (s : string) :
  all_chars test s = true -> all_chars test (lstrip s) = true.
Proof.
  induction s as [|c s IH]; [done|]. cbn [lstrip all_chars].
  intros [Hc Hs]%andb_true_iff. destruct (is_space c); [auto|].
  cbn [all_chars]. by rewrite Hc, Hs.
Qed.

Lemma all_chars_rstrip (test : ascii -> bool) (s : string) :
  all_chars test s = true -> all_chars test (rstrip s) = true.
Proof.
  induction s as [|c s IH]; [done|]. cbn [rstrip all_chars].
  intros [Hc Hs]%andb_true_iff. specialize (IH Hs).
  destruct (rstrip s) as [|c' r].
  - destruct (is_space c); [done|]. cbn [all_chars]. by rewrite Hc.
  - cbn [all_chars] in *. by rewrite Hc, IH.
Qed.

Lemma all_chars_take (test : ascii -> bool) (n : nat) (s : string) :
  all_chars test s = true -> all_chars test (string_take n s) = true.
Proof.
  revert s. induction n as [|n IH]; intros [|c s]; try done. cbn [string_take all_chars].
  intros [Hc Hs]%andb_true_iff. by rewrite Hc, IH.
Qed.

Lemma string_take_length (n : nat) (s : string) : String.length (string_take n s) <= n.
Proof.
  revert s. induction n as [|n IH]; intros [|c s]; simpl; try lia.
  specialize (IH s). lia.
Qed.

Lemma collapse_spaces_clean (in_run : bool) (s : string) :
  all_chars clean_char (collapse_spaces in_run (replace_invalid s)) = true.
Proof.
  revert in_run. induction s as [|c s IH]; intros in_run; [done|].
  cbn [replace_invalid collapse_spaces].
  destruct (is_invalid_char c) eqn:Hc.
  - change (is_space "_") with false. cbn [all_chars]. by rewrite IH.
  - destruct (is_space c) eqn:Hspace.
    + destruct in_run; [apply IH|]. cbn [all_chars]. by rewrite IH.
    + cbn [all_chars]. rewrite IH. unfold clean_char. by rewrite Hc, Hspace.
Qed.

Lemma lstrip_head (s : string) :
  match lstrip s with
  | EmptyString => True
  | String c _ => is_space c = false
  end.
Proof.
  induction s as [|c s IH]; [done|]. cbn [lstrip].
  by destruct (is_space c) eqn:Hc.
Qed.

Lemma rstrip_head (s : string) :
  match s with
  | EmptyString => True
  | String c _ => is_space c = false
  end ->
  match rstrip s with
  | EmptyString => True
  | String c _ => is_space c = false
  end.
Proof.
  destruct s as [|c s]; [done|]. cbn [rstrip]. intros Hc.
  destruct (rstrip s); [by rewrite Hc|done].
Qed.

Lemma string_take_head (n : nat) (s : string) :
  match s with
  | EmptyString => True
  | String c _ => is_space c = false
  end ->
  match string_take n s with
  | EmptyString => True
  | String c _ => is_space c = false
  end.
Proof. by destruct n, s. Qed.

(** X11: a sanitized filename has at most 100 characters, none of them from
    the class of invalid characters, no white space other than blanks, and
    does not start with white space. *)
Theorem X11_sanitize_filename (filename : string) :
  String.length (sanitize_filename filename) <= 100 /\
  all_chars clean_char (sanitize_filename filename) = true /\
  match sanitize_filename filename with
  | EmptyString => True
  | String c _ => is_space c = false
  end.
Proof.
  unfold sanitize_filename, strip. cbn zeta. split; [apply string_take_length|]. split.
  - apply all_chars_take, all_chars_rstrip, all_chars_lstrip, collapse_spaces_clean.
  - apply string_take_head, rstrip_head, lstrip_head.
Qed.

Example sanitize_filename_example :
  sanitize_filename "  a<b>:  c/d	e?  " = "a_b__ c_d e_".
Proof. reflexivity. Qed.

Lemma appended_length (f : figure) : List.length (appended f) <= 1.
Proof.
  unfold appended. destruct (process_figure f) as [[| |it closed|closed|closed]|];
    simpl; lia.
Qed.

Lemma bind_appended_length (figures : list figure) :
  List.length (figures ≫= appended) <= List.length figures.
Proof.
  induction figures as [|f rest IH]; [done|].
  change ((f :: rest) ≫= appended) with (appended f ++ (rest ≫= appended)).
  rewrite length_app. pose proof (appended_length f). simpl. lia.
Qed.

(** X12: on a page that loads, the items returned are those of the located
    figures in document order, at most one per figure; and when the primary
    selector is found and matches, the figures processed are exactly its
    matches. *)
Theorem X12_items_follow_figures (p : page) (figures : list figure) :
  setup_driver p = Ok tt -> navigate p = Ok tt ->
  locate_figures p = Ok (Some figures) ->
  scrape_single_subcategory p = Ok (figures ≫= appended) /\
  List.length (figures ≫= appended) <= List.length figures /\
  (forall f rest, wait_primary p = Ok tt -> primary_figures p = Ok (f :: rest) ->
     figures = f :: rest).
Proof.
  intros Hsetup Hnavigate Hlocate.
  split; [by rewrite scrape_single_subcategory_spec, Hsetup, Hnavigate, Hlocate|].
  split; [apply bind_appended_length|].
  intros f rest Hwait Hprimary. revert Hlocate. unfold locate_figures.
  rewrite Hwait, Hprimary. simpl. congruence.
Qed.

Lemma X12_items_follow_figures_witness :
  scrape_single_subcategory page_tagged_figures =
    Ok ([figure_no_link; figure_full; figure_no_scroll] ≫= appended).
Proof.
  apply (X12_items_follow_figures page_tagged_figures
           [figure_no_link; figure_full; figure_no_scroll]); reflexivity.
Defined.


(** X14: when the copy control is there and its text can be read, the
    prompt-like fallback elements play no part; a text that is neither empty
    nor the placeholder is the prompt, once stripped; and when the text is
    empty or the placeholder and no neighbouring element is found, that text
    itself is returned as the prompt, so that the placeholder [true] passes
    the guard of the workflow and is appended as a prompt. *)
Theorem X14_copy_control_precedence (src : result (option string)) (b : copy_button)
    (fallback : result string) (text : string) :
  button_text b = Ok text ->
  extract_prompt_from_popup (Ok (Modal src (Ok b) fallback)) =
    extract_prompt_from_popup (Ok (Modal src (Ok b) Raise)) /\
  (strip text <> "" -> strip text <> "true" ->
   exists url, extract_prompt_from_popup (Ok (Modal src (Ok b) fallback)) =
               Ok (Some (Item url (Some (strip text))))) /\
  (strip text = "" \/ strip text = "true" -> nearby_text b = Raise ->
   exists url, extract_prompt_from_popup (Ok (Modal src (Ok b) fallback)) =
               Ok (Some (Item url (Some (strip text))))) /\
  (strip text = "true" -> nearby_text b = Raise ->
   forall preview, exists url,
     extracted_item (Some (Item url (Some "true"))) preview =
       Some (Item (py_or url preview) (Some "true")) /\
     extract_prompt_from_popup (Ok (Modal src (Ok b) fallback)) =
       Ok (Some (Item url (Some "true")))).
Proof.
  intros Htext. unfold extract_prompt_from_popup. simpl. rewrite Htext. simpl.
  split; [|split; [|split]].
  - destruct (String.eqb (strip text) "" || String.eqb (strip text) "true");
      [destruct (nearby_text b)|]; by destruct src.
  - intros Hempty%String.eqb_neq Htrue%String.eqb_neq. rewrite Hempty, Htrue. simpl.
    destruct src as [url|]; simpl; eauto.
  - intros Hplaceholder Hnearby. rewrite Hnearby.
    assert (String.eqb (strip text) "" || String.eqb (strip text) "true" = true) as ->.
    { destruct Hplaceholder as [-> | ->]; reflexivity. }
    destruct src as [url|]; simpl; eauto.
  - intros Hplaceholder Hnearby preview. rewrite Hnearby, Hplaceholder. simpl.
    destruct src as [url|]; simpl; eexists; split; reflexivity.
Qed.

Lemma X14_copy_control_precedence_witness :
  exists url,
    extract_prompt_from_popup
      (Ok (Modal Raise (Ok (CopyButton (Ok " true ") Raise)) (Ok "a real prompt"))) =
    Ok (Some (Item url (Some (strip " true ")))).
Proof.
  apply (proj1 (proj2 (proj2 (X14_copy_control_precedence Raise
                                (CopyButton (Ok " true ") Raise)
                                (Ok "a real prompt") " true " eq_refl))));
    [right|]; reflexivity.
Defined.

Lemma rstrip_idemp (s : string) : rstrip (rstrip s) = rstrip s.
Proof.
  induction s as [|c s IH]; [done|]. cbn [rstrip].
  destruct (rstrip s) as [|c' r] eqn:Hr.
  - destruct (is_space c) eqn:Hc; [done|]. cbn [rstrip]. by rewrite Hc.
  - cbn [rstrip] in *. by rewrite IH.
Qed.

Lemma lstrip_no_space_head (s : string) :
  match s with
  | EmptyString => True
  | String c _ => is_space c = false
  end ->
  lstrip s = s.
Proof. destruct s as [|c s]; [done|]. cbn [lstrip]. by intros ->. Qed.

Lemma strip_idemp (s : string) : strip (strip s) = strip s.
Proof.
  unfold strip.
  rewrite (lstrip_no_space_head (rstrip (lstrip s))).
  - apply rstrip_idemp.
  - apply rstrip_head, lstrip_head.
Qed.

(** The last character of a stripped string is no white space. *)
Lemma rstrip_last (s : string) :
  match last_char (rstrip s) with
  | Some c => is_space c = false
  | None => True
  end.
Proof.
  induction s as [|c s IH]; [done|]. cbn [rstrip].
  destruct (rstrip s) as [|c' r].
  - destruct (is_space c) eqn:Hc; [done|]. simpl. exact Hc.
  - cbn [last_char] in *. by destruct (last_char r).
Qed.

(** X15: every prompt the extraction returns is stripped: stripping it
    again changes nothing, and it neither starts nor ends with white
    space. *)
Theorem X15_prompts_are_stripped (wait_modal : result modal) (it : item) (text : string) :
  extract_prompt_from_popup wait_modal = Ok (Some it) ->
  prompt it = Some text ->
  strip text = text /\
  match text with
  | EmptyString => True
  | String c _ => is_space c = false
  end /\
  match last_char text with
  | Some c => is_space c = false
  | None => True
  end.
Proof.
  intros Hextract Hprompt.
  assert (Hstripped : exists raw, text = strip raw).
  { revert Hextract. unfold extract_prompt_from_popup.
    destruct wait_modal as [[src button fallback]|]; [|done]. simpl.
    destruct src as [src|]; simpl;
      (destruct button as [[[t|] nearby]|]; simpl;
         [destruct (String.eqb (strip t) "" || String.eqb (strip t) "true");
            [destruct nearby as [t'|]|]
         |destruct fallback as [t'|]
         |destruct fallback as [t'|]]);
      simpl; intros [= <-]; simpl in Hprompt; try discriminate;
      injection Hprompt as <-; eauto. }
  destruct Hstripped as [raw ->].
  split; [apply strip_idemp|]. split.
  - apply rstrip_head, lstrip_head.
  - apply rstrip_last.
Qed.

Lemma X15_prompts_are_stripped_witness :
  strip "a cat on a skateboard" = "a cat on a skateboard".
Proof.
  apply (X15_prompts_are_stripped (Ok modal_full)
           (Item (Some "https://cdn/full.mp4") (Some "a cat on a skateboard"))
           "a cat on a skateboard" eq_refl eq_refl).
Defined.

Lemma click_each_button_clicked (selector : string) (buttons : list button)
    (index : nat) (a : action) :
  a ∈ (click_each_button selector index buttons).2 ->
  exists i b,
    buttons !! i = Some b /\ clickable b /\
    (a = ClickButton selector (index + i) \/
     (a = ScriptClickButton selector (index + i) /\ click b = Raise)).
Proof.
  revert index. induction buttons as [|b rest IH]; intros index;
    cbn [click_each_button]; [by intros ?%elem_of_nil|].
  assert (Hrest : a ∈ (click_each_button selector (S index) rest).2 ->
            exists i b', (b :: rest) !! i = Some b' /\ clickable b' /\
              (a = ClickButton selector (index + i) \/
               (a = ScriptClickButton selector (index + i) /\ click b' = Raise))).
  { intros (i & b' & Hb' & Hclickable & Ha)%IH. exists (S i), b'.
    split; [done|]. split; [done|]. by replace (index + S i) with (S index + i) by lia. }
  destruct (is_displayed b) as [[]|] eqn:Hdisplayed; simpl;
    [|exact Hrest|by intros ?%elem_of_nil].
  destruct (is_enabled b) as [[]|] eqn:Henabled; simpl;
    [|exact Hrest|by intros ?%elem_of_nil].
  assert (Hhere : a = ClickButton selector index \/
                  (a = ScriptClickButton selector index /\ click b = Raise) ->
            exists i b', (b :: rest) !! i = Some b' /\ clickable b' /\
              (a = ClickButton selector (index + i) \/
               (a = ScriptClickButton selector (index + i) /\ click b' = Raise))).
  { intros Ha. exists 0, b. split; [done|]. split; [done|].
    by replace (index + 0) with index by lia. }
  destruct (click b) eqn:Hclick.
  - intros ->%list_elem_of_singleton. apply Hhere. by left.
  - destruct (script_click b).
    + intros [-> | Ha]%elem_of_cons; [apply Hhere; by left|].
      apply list_elem_of_singleton in Ha as ->. apply Hhere. by right.
    + destruct (click_each_button selector (S index) rest) as [closed tried].
      cbn [snd] in *.
      intros [-> | Ha]%elem_of_cons; [apply Hhere; by left|].
      apply elem_of_cons in Ha as [-> | Ha]; [apply Hhere; by right|auto].
Qed.

Lemma try_close_buttons_clicked (c : closer) (selectors : list string) (a : action) :
  a ∈ (try_close_buttons c selectors).2 ->
  exists selector buttons i b,
    selector ∈ selectors /\ find_buttons c selector = Ok buttons /\
    buttons !! i = Some b /\ clickable b /\
    (a = ClickButton selector i \/
     (a = ScriptClickButton selector i /\ click b = Raise)).
Proof.
  induction selectors as [|selector rest IH]; cbn [try_close_buttons];
    [by intros ?%elem_of_nil|].
  assert (Hrest : a ∈ (try_close_buttons c rest).2 ->
            exists selector' buttons i b,
              selector' ∈ selector :: rest /\ find_buttons c selector' = Ok buttons /\
              buttons !! i = Some b /\ clickable b /\
              (a = ClickButton selector' i \/
               (a = ScriptClickButton selector' i /\ click b = Raise))).
  { intros (selector' & buttons & i & b & Hin & H)%IH.
    exists selector', buttons, i, b. split; [by right|done]. }
  set (first := match find_buttons c selector with
                | Ok buttons => click_each_button selector 0 buttons
                | Raise => (false, [])
                end).
  assert (Hfirst : a ∈ first.2 ->
            exists selector' buttons i b,
              selector' ∈ selector :: rest /\ find_buttons c selector' = Ok buttons /\
              buttons !! i = Some b /\ clickable b /\
              (a = ClickButton selector' i \/
               (a = ScriptClickButton selector' i /\ click b = Raise))).
  { subst first. destruct (find_buttons c selector) as [buttons|] eqn:Hfind;
      [|by intros ?%elem_of_nil].
    intros (i & b & Hb & Hclickable & Ha)%click_each_button_clicked.
    exists selector, buttons, i, b. split; [by left|done]. }
  destruct first as [[] tried]; cbn [snd] in *; [exact Hfirst|].
  destruct (try_close_buttons c rest) as [closed tried']. cbn [snd] in *.
  intros [?|?]%elem_of_app; auto.
Qed.

Lemma close_popup_action (c : closer) (a : action) :
  a ∈ (close_popup c).2 -> a ∈ (run_strategy c (strategy_of a)).2.
Proof.
  rewrite close_popup_first_success.
  destruct (first_success_prefix c fallback_chain) as (ran & rest & _ & -> & _).
  intros (st & Ha & _)%list_elem_of_bind.
  by rewrite (run_strategy_actions c st a Ha).
Qed.

(** X16: [close_popup] clicks a candidate close button only if the button
    is shown and enabled, and tries the script click on a button only if the
    plain click on that button raised; the button is one that a selector of
    the list matched, at the position the interaction names. *)
Theorem X16_only_clickable_buttons (c : closer) (selector : string) (index : nat) :
  (ClickButton selector index ∈ (close_popup c).2 ->
   exists buttons b,
     selector ∈ close_selectors /\ find_buttons c selector = Ok buttons /\
     buttons !! index = Some b /\
     is_displayed b = Ok true /\ is_enabled b = Ok true) /\
  (ScriptClickButton selector index ∈ (close_popup c).2 ->
   exists buttons b,
     selector ∈ close_selectors /\ find_buttons c selector = Ok buttons /\
     buttons !! index = Some b /\
     is_displayed b = Ok true /\ is_enabled b = Ok true /\ click b = Raise).
Proof.
  split.
  - intros Ha%close_popup_action. cbn [strategy_of run_strategy] in Ha.
    apply try_close_buttons_clicked in Ha
      as (selector' & buttons & i & b & Hin & Hfind & Hb & [Hd He] & [Ha | [Ha _]]);
      [|discriminate Ha].
    injection Ha as <- <-. by exists buttons, b.
  - intros Ha%close_popup_action. cbn [strategy_of run_strategy] in Ha.
    apply try_close_buttons_clicked in Ha
      as (selector' & buttons & i & b & Hin & Hfind & Hb & [Hd He] & [Ha | [Ha Hclick]]);
      [discriminate Ha|].
    injection Ha as <- <-. by exists buttons, b.
Qed.

Lemma X16_only_clickable_buttons_witness :
  exists buttons b,
    "[aria-label='Close']" ∈ close_selectors /\
    find_buttons closer_button "[aria-label='Close']" = Ok buttons /\
    buttons !! 1 = Some b /\
    is_displayed b = Ok true /\ is_enabled b = Ok true /\ click b = Raise.
Proof.
  apply (proj2 (X16_only_clickable_buttons closer_button "[aria-label='Close']" 1)).
  assert (H : (close_popup closer_button).2 =
              [ClickButton "[aria-label='Close']" 1;
               ScriptClickButton "[aria-label='Close']" 1]) by reflexivity.
  rewrite H. apply elem_of_cons. right. by apply list_elem_of_singleton.
Defined.

(** ** Sample runs for the further properties of the downloader *)

Lemma X2_download_video_effect_witness :
  files (download_video flaky_server "https://x/a.mp4" "cat/sub/videos/a.mp4"
           sample_disk).2 = files sample_disk.
Proof.
  apply (X2_download_video_effect flaky_server "https://x/a.mp4" "cat/sub/videos/a.mp4"
           sample_disk).
  reflexivity.
Defined.

Lemma X3_no_file_overwritten_witness :
  files (download_category_videos plain_url_path good_server ["cat/sub/videos.json"]
           sample_disk_downloaded) !! "cat/sub/videos/a.mp4" =
  Some (FBytes "old bytes").
Proof.
  apply (X3_no_file_overwritten plain_url_path good_server ["cat/sub/videos.json"]
           sample_disk_downloaded "cat/sub/videos/a.mp4").
  - intros H%list_elem_of_singleton. discriminate H.
  - reflexivity.
Defined.

Lemma X5_unreadable_file_skipped_witness :
  download_category_videos plain_url_path good_server
    ([] ++ "cat/other/videos.json" :: ["cat/sub/videos.json"]) sample_disk =
  download_category_videos plain_url_path good_server ([] ++ ["cat/sub/videos.json"])
    sample_disk.
Proof.
  apply (X5_unreadable_file_skipped plain_url_path good_server [] ["cat/sub/videos.json"]
           "cat/other/videos.json" sample_disk).
  vm_compute. exact I.
Defined.

Lemma X6_filename_stays_in_folder_witness :
  basename (path_join "cat/sub/videos" "b.webm") = "b.webm".
Proof.
  apply (X6_filename_stays_in_folder plain_url_path "https://x/dir/b.c.webm" "b.webm").
  reflexivity.
Defined.

Lemma X7_same_filename_one_download_witness :
  requests (process_videos plain_url_path good_server "cat/sub/videos"
              [JObj record_d1; JObj record_d2] sample_disk).2 =
  requests sample_disk ++ ["https://x/d1/a.mp4"].
Proof.
  apply (X7_same_filename_one_download plain_url_path good_server "cat/sub/videos"
           record_d1 record_d2 "https://x/d1/a.mp4" "https://x/d2/a.mp4" "a.mp4"
           ["abcd"; "efgh"] sample_disk);
    try reflexivity; discriminate.
Defined.

Lemma X8_find_video_files_witness :
  find_video_files sample_walk = ["cat/sub/videos.json"] /\
  endswith "cat/sub/videos.json" ".json" = true.
Proof.
  split; [reflexivity|].
  apply (X8_find_video_files plain_url_path sample_walk "cat/sub/videos.json").
  apply list_elem_of_singleton. reflexivity.
Defined.

Lemma X9_load_videos_from_json_witness :
  load_videos_from_json "cat/sub/videos.json" sample_saved_disk = JList [].
Proof.
  apply (proj1 (X9_load_videos_from_json "cat/sub/videos.json" sample_saved_disk)
           [Item (Some "https://x/a.mp4") (Some "p")]).
  reflexivity.
Defined.

Lemma X10_saved_items_downloadable_witness :
  process_video plain_url_path good_server "cat/sub/videos"
    (JObj (item_record (Item None (Some "p")))) sample_disk =
  (JObj (item_record (Item None (Some "p"))), sample_disk).
Proof.
  apply (X10_saved_items_downloadable plain_url_path good_server []).
  reflexivity.
Defined.

(** ** Saving the items and running a category *)

Section OrchestratorProperties.

Variable isalnum : ascii -> bool.
Variable repr : json -> string.
Variable site : json -> page.

Local Abbreviation save_folder := (save_folder isalnum).
Local Abbreviation save_videos_data := (save_videos_data isalnum).
Local Abbreviation folder_name := (folder_name repr).
Local Abbreviation process_subcategory := (process_subcategory isalnum repr site).
Local Abbreviation process_subcategories := (process_subcategories isalnum repr site).
Local Abbreviation process_category := (process_category isalnum repr site).

Lemma split_underscore_app (a b : string) :
  contains "_" a = false -> split_underscore (a +:+ "_" +:+ b) = Some (a, b).
Proof.
  induction a as [|c a IH]; [done|]. cbn [contains].
  intros [Hc Ha]%orb_false_iff. rewrite append_cons. cbn [split_underscore].
  by rewrite Hc, (IH Ha).
Qed.

Lemma split_underscore_inv (s a b : string) :
  split_underscore s = Some (a, b) ->
  s = a +:+ "_" +:+ b /\ contains "_" a = false.
Proof.
  revert a. induction s as [|c s IH]; intros a; [done|]. cbn [split_underscore].
  destruct (Ascii.eqb_spec c "_") as [->|Hc].
  - by intros [= <- <-].
  - destruct (split_underscore s) as [[before after]|]; [|done]. simpl.
    intros [= <- <-]. destruct (IH before eq_refl) as [-> Hbefore].
    split; [done|]. cbn [contains]. rewrite Hbefore.
    by apply Ascii.eqb_neq in Hc as ->.
Qed.

(** X17: the items of subcategory [S] of category [C] are saved under
    [C/S] when [C] has no underscore.  In general the name [C_S] is cut at
    its first underscore: a category [A_B] with [A] free of underscores has
    its items saved under [A/B_S], away from the category's own folder. *)
Theorem X17_save_folder_first_underscore :
  (forall category subcategory : string,
     contains "_" category = false ->
     save_folder (folder_name category (JStr subcategory)) =
       path_join category subcategory) /\
  (forall a b subcategory : string,
     contains "_" a = false ->
     save_folder (folder_name (a +:+ "_" +:+ b) (JStr subcategory)) =
       path_join a (b +:+ "_" +:+ subcategory)) /\
  (forall name a b : string,
     split_underscore name = Some (a, b) ->
     name = a +:+ "_" +:+ b /\ contains "_" a = false /\
     save_folder name = path_join a b).
Proof.
  split; [|split].
  - intros category subcategory Hcategory. unfold save_folder, folder_name.
    by rewrite split_underscore_app.
  - intros a b subcategory Ha. unfold save_folder, folder_name.
    replace ((a +:+ "_" +:+ b) +:+ "_" +:+ subcategory)
      with (a +:+ "_" +:+ (b +:+ "_" +:+ subcategory))
      by by rewrite !append_assoc.
    by rewrite split_underscore_app.
  - intros name a b Hsplit. destruct (split_underscore_inv name a b Hsplit) as [-> Ha].
    split; [done|]. split; [done|]. unfold save_folder. by rewrite Hsplit.
Qed.


Lemma process_subcategories_app (category_name : string) (before after : list json) :
  process_subcategories category_name (before ++ after) =
    match process_subcategories category_name before with
    | (saved, Finished) =>
        (saved ++ (process_subcategories category_name after).1,
         (process_subcategories category_name after).2)
    | r => r
    end.
Proof.
  induction before as [|subcat before IH]; cbn [app process_subcategories].
  - by destruct (process_subcategories category_name after).
  - destruct (subscript subcat "name") as [name|]; [|done]. simpl.
    destruct (subscript subcat "link") as [link|]; [|done]. simpl.
    rewrite IH.
    destruct (process_subcategories category_name before) as [saved []];
      by rewrite ?app_assoc.
Qed.

Lemma process_subcategories_outcome (category_name : string) (subcategories : list json) :
  (process_subcategories category_name subcategories).2 <> NoSubcategories.
Proof.
  induction subcategories as [|subcat rest IH]; cbn [process_subcategories]; [done|].
  destruct (subscript subcat "name") as [name|]; [|done]. simpl.
  destruct (subscript subcat "link") as [link|]; [|done]. simpl.
  by destruct (process_subcategories category_name rest).
Qed.

(** X19: a manifest entry that is no object or lacks [name] or [link] ends
    the run of the category: what the entries before it saved is kept, and
    no entry after it is scraped or saved. *)
Theorem X19_malformed_entry_aborts (category_name : string) (before after : list json)
    (bad : json) :
  (process_subcategories category_name before).2 = Finished ->
  subscript bad "name" = Raise \/ subscript bad "link" = Raise ->
  process_subcategories category_name (before ++ bad :: after) =
    ((process_subcategories category_name before).1, Aborted).
Proof.
  intros Hbefore Hbad. rewrite process_subcategories_app.
  destruct (process_subcategories category_name before) as [saved outcome].
  cbn [fst snd] in *. subst outcome. cbn [process_subcategories].
  destruct Hbad as [-> | Hlink]; [by rewrite app_nil_r|].
  destruct (subscript bad "name"); simpl; rewrite ?Hlink; by rewrite app_nil_r.
Qed.

(** X20: a subcategory whose page gives no items, or whose items cannot be
    saved, adds nothing, and the entries before and after it are processed
    as without it. *)
Theorem X20_empty_subcategory_skipped (category_name : string)
    (before after : list json) (subcat name link : json) :
  subscript subcat "name" = Ok name -> subscript subcat "link" = Ok link ->
  (scrape_single_subcategory (site link) = Ok [] \/
   exists videos_data,
     scrape_single_subcategory (site link) = Ok videos_data /\
     save_videos_data videos_data (folder_name category_name name) = Raise) ->
  process_subcategory category_name name link = None /\
  process_subcategories category_name (before ++ subcat :: after) =
    process_subcategories category_name (before ++ after).
Proof.
  intros Hname Hlink Hnothing.
  assert (Hnone : process_subcategory category_name name link = None).
  { unfold process_subcategory.
    destruct Hnothing as [-> | (videos_data & -> & Hsave)]; [done|].
    destruct videos_data; [done|]. by rewrite Hsave. }
  split; [exact Hnone|]. rewrite !process_subcategories_app.
  destruct (process_subcategories category_name before) as [saved []]; try done.
  cbn [process_subcategories]. rewrite Hname, Hlink. simpl. rewrite Hnone.
  by destruct (process_subcategories category_name after).
Qed.

(** X21: without a readable manifest nothing is scraped: when
    [metadata.json] is missing from the category folder, is no JSON object,
    or has no or an empty [sub_categories], the run ends at once with nothing
    saved. *)
Theorem X21_no_manifest_no_run (category_name : string) (disk : gmap string file) :
  (disk !! path_join category_name "metadata.json" = None \/
   (exists content, disk !! path_join category_name "metadata.json" =
                      Some (FBytes content)) \/
   (exists data, disk !! path_join category_name "metadata.json" = Some (FJson data) /\
                 forall m, data = JObj m ->
                           m !! "sub_categories" = None \/
                           m !! "sub_categories" = Some (JList []))) ->
  load_subcategories_from_metadata category_name disk = JList [] /\
  process_category category_name disk = ([], NoSubcategories).
Proof.
  intros H.
  assert (Hload : load_subcategories_from_metadata category_name disk = JList []).
  { unfold load_subcategories_from_metadata.
    destruct H as [-> | [(content & ->) | (data & -> & Hdata)]]; [done..|].
    destruct data as [|b|n|t|l|m]; try done.
    by destruct (Hdata m eq_refl) as [-> | ->]. }
  split; [exact Hload|]. unfold process_category. by rewrite Hload.
Qed.

Local Abbreviation entry_saved := (entry_saved isalnum repr site).


End OrchestratorProperties.

(** ** Sample runs of a category *)

Example process_category_example :
  process_category ascii_isalnum sample_repr sample_site "Effects"
    {[ "Effects/metadata.json" :=
         FJson (JObj {[ "sub_categories" := JList [entry_b; entry_a; entry_no_link] ]}) ]} =
  ([SavedFiles "Effects/Sub A/videos.json"
      (saved_json [Item (Some "https://cdn/full.mp4") (Some "a cat on a skateboard")])
      "Effects/Sub A/videos.csv"
      [["video_url"; "prompt"]; ["https://cdn/full.mp4"; "a cat on a skateboard"]]],
   Aborted).
Proof. vm_compute. reflexivity. Qed.

Lemma X17_save_folder_first_underscore_witness :
  save_folder ascii_isalnum (folder_name sample_repr "Effects" (JStr "Sub A")) =
    path_join "Effects" "Sub A" /\
  save_folder ascii_isalnum
    (folder_name sample_repr ("Camera" +:+ "_" +:+ "Moves") (JStr "Sub A")) =
    path_join "Camera" ("Moves" +:+ "_" +:+ "Sub A").
Proof.
  destruct (X17_save_folder_first_underscore ascii_isalnum sample_repr)
    as (Hplain & Hunderscore & _).
  split; [apply Hplain|apply Hunderscore]; reflexivity.
Defined.


Lemma X19_malformed_entry_aborts_witness :
  process_subcategories ascii_isalnum sample_repr sample_site "Effects"
    ([entry_a] ++ entry_no_link :: [entry_a]) =
  ((process_subcategories ascii_isalnum sample_repr sample_site "Effects" [entry_a]).1,
   Aborted).
Proof.
  apply (X19_malformed_entry_aborts ascii_isalnum sample_repr sample_site "Effects"
           [entry_a] [entry_a] entry_no_link).
  - vm_compute. reflexivity.
  - right. reflexivity.
Defined.

Lemma X20_empty_subcategory_skipped_witness :
  process_subcategories ascii_isalnum sample_repr sample_site "Effects"
    ([entry_a] ++ entry_b :: [entry_a]) =
  process_subcategories ascii_isalnum sample_repr sample_site "Effects"
    ([entry_a] ++ [entry_a]).
Proof.
  apply (X20_empty_subcategory_skipped ascii_isalnum sample_repr sample_site "Effects"
           [entry_a] [entry_a] entry_b (JStr "Sub B") (JStr "https://site/b")).
  - reflexivity.
  - reflexivity.
  - left. reflexivity.
Defined.

Lemma X21_no_manifest_no_run_witness :
  process_category ascii_isalnum sample_repr sample_site "Effects" ∅ =
  ([], NoSubcategories).
Proof.
  apply (X21_no_manifest_no_run ascii_isalnum sample_repr sample_site "Effects" ∅).
  left. reflexivity.
Defined.

